(** * ForecastForge front-end: upload form and results poller

  A shallow embedding of the two page components of the front-end,
  [HomePage] (the upload form with its [handleSubmit] handler) and
  [ResultsPage] (the interval poller, the progress bar and the
  leaderboard), followed by the properties of the task-tracking
  protocol that hold of them and the ones that do not. *)

From Stdlib Require Import List String ZArith NArith QArith Floats Bool Lia.
From Stdlib Require Import Sorting.Sorted Sorting.Permutation.
Import ListNotations.

(** ** JavaScript values used by the pages *)

Module JS.

(** Numbers are IEEE 754 binary64 values, as in the language: the
    primitive floats, whose quotient and product round to nearest,
    ties to even, overflow to an infinity and yield NaN where the
    standard says so. *)
Definition number : Type := float.

(** The value of a decimal integer literal, in the source or in a
    JSON document: the double nearest to it, an infinity when it is
    out of range. *)
Definition Num (z : Z) : number :=
  SF2Prim (binary_normalize prec emax z 0%Z false).

(** [a / b] *)
Definition div (a b : number) : number := PrimFloat.div a b.

(** [a * b] *)
Definition mul (a b : number) : number := PrimFloat.mul a b.

(** A numeric JSON field that may be missing: [undefined] converts
    to NaN in arithmetic.  It is falsy, and so are the zero of either
    sign and NaN. *)
Definition to_number (v : option number) : number :=
  match v with
  | Some x => x
  | None => nan
  end.

Definition truthy (v : option number) : bool :=
  match v with
  | Some x => negb (PrimFloat.eqb x (Num 0) || PrimFloat.is_nan x)
  | None => false
  end.

(** [s || fallback] on a string that may be [undefined]: the empty
    string is falsy. *)
Definition or_else (v : option string) (fallback : string) : string :=
  match v with
  | Some (String c s) => String c s
  | Some EmptyString | None => fallback
  end.

(** [s && ...] guard on a string that may be [undefined]. *)
Definition nonempty (v : option string) : option string :=
  match v with
  | Some (String c s) => Some (String c s)
  | Some EmptyString | None => None
  end.

End JS.

(** ** HomePage: the upload form *)

Module HomePage.

Record File : Type := { name : string }.

(** The rejection value of [axios.post], read through
    [err.response?.data?.detail]. *)
Record ErrorBody : Type := { detail : option string }.
Record ErrorResponse : Type := { data : option ErrorBody }.
Record AxiosError : Type := { response : option ErrorResponse }.

(** What awaiting [axios.post] yields: a response carrying
    [data.task_id], or a thrown error. *)
Inductive PostOutcome : Type :=
| Created (task_id : string)
| Thrown (err : AxiosError).

(** The three [useState] cells. *)
Record State : Type := {
  file : option File;
  error : string;
  loading : bool
}.

(** What the handler does to the outside world. *)
Inductive Effect : Type :=
| PreventDefault
| Post (url : string) (field : string) (f : File)
| Navigate (path : string).

Definition setFile (v : option File) (st : State) : State :=
  {| file := v; error := error st; loading := loading st |}.
Definition setError (v : string) (st : State) : State :=
  {| file := file st; error := v; loading := loading st |}.
Definition setLoading (v : bool) (st : State) : State :=
  {| file := file st; error := error st; loading := v |}.

Definition handleFileChange (files : list File) (st : State) : State :=
  setError EmptyString (setFile (hd_error files) st).

Definition process_url : string := "http://localhost:8000/api/process".
Definition no_file_message : string := "Por favor, selecciona un archivo CSV.".
Definition upload_failed_message : string := "Ocurrió un error al subir el archivo.".

Definition error_detail (err : AxiosError) : option string :=
  match response err with
  | Some r => match data r with
              | Some b => detail b
              | None => None
              end
  | None => None
  end.

(** [handleSubmit] up to its [await]: either it returns at the
    guard ([None]), or it has sent the request and is suspended
    ([Some f], the file that was posted). *)
Definition submit (st : State) : State * list Effect * option File :=
  match file st with
  | None => (setError no_file_message st, [PreventDefault], None)
  | Some f =>
      (setError EmptyString (setLoading true st),
       [PreventDefault; Post process_url "file" f],
       Some f)
  end.

(** The rest of [handleSubmit] once the request has settled: the
    [try] body, the [catch] clause, then [finally]. *)
Definition settle (outcome : PostOutcome) (st : State) : State * list Effect :=
  match outcome with
  | Created task_id =>
      (setLoading false st, [Navigate ("/results/" ++ task_id)])
  | Thrown err =>
      (setLoading false
         (setError (JS.or_else (error_detail err) upload_failed_message) st),
       [])
  end.

(** One whole call of [handleSubmit]; [outcome] is consulted only
    when a request was sent. *)
Definition handleSubmit (outcome : PostOutcome) (st : State)
  : State * list Effect :=
  match submit st with
  | (st1, fx, None) => (st1, fx)
  | (st1, fx, Some _) =>
      let (st2, fx') := settle outcome st1 in (st2, fx ++ fx')
  end.

Definition is_post (e : Effect) : bool :=
  match e with
  | Post _ _ _ => true
  | _ => false
  end.

(** Network calls made by a run of the handler. *)
Definition network_calls (fx : list Effect) : nat :=
  List.length (filter is_post fx).

End HomePage.

(** ** ResultsPage: data received from the status endpoint *)

Module Payload.

(** [response.data.meta]; every field is optional in the JSON. *)
Record ProgressMeta : Type := {
  model : option string;
  current : option JS.number;
  total : option JS.number
}.

Record Metrics : Type := { mape : Q; mae : Q }.

Record ModelResult : Type := {
  model_name : string;
  metrics : Metrics
}.

(** [response.data] of [GET /api/results/{task_id}]. *)
Record t : Type := {
  status : string;
  meta : option ProgressMeta;
  results : option (list ModelResult)
}.

(** The object literal [{}]. *)
Definition empty_meta : ProgressMeta :=
  {| model := None; current := None; total := None |}.

End Payload.

(** ** ResultsPage: the poller and the two views *)

Module ResultsPage.

Import Payload.

(** The period given to [setInterval], in milliseconds. *)
Definition INTERVAL : Z := 3000.

Definition results_url (taskId : string) : string :=
  "http://localhost:8000/api/results/" ++ taskId.

(** What the effect and its callback do, in order. *)
Inductive Effect : Type :=
| Get (id : nat) (url : string) (time : Z)
| SetResults (v : option (list ModelResult))
| SetTaskStatus (v : Payload.t)
| ConsoleError (id : nat)
| ClearInterval.

(** The component between two events.  [taskStatus] and [results]
    hold the value last handed to their setter (at first the
    argument of [useState]); [poll] is the interval timer, [Some due]
    while it is armed to fire next at [due] and [None] once cleared;
    [in_flight] lists the requests whose [await] has not returned;
    [now] counts milliseconds since the effect ran. *)
Record State : Type := {
  taskId : string;
  now : Z;
  poll : option Z;
  next_id : nat;
  in_flight : list nat;
  taskStatus : Payload.t;
  results : option (list ModelResult);
  log : list Effect
}.

Definition set_now (v : Z) (st : State) : State :=
  {| taskId := taskId st; now := v; poll := poll st;
     next_id := next_id st; in_flight := in_flight st;
     taskStatus := taskStatus st; results := results st;
     log := log st |}.

Definition set_poll (v : option Z) (st : State) : State :=
  {| taskId := taskId st; now := now st; poll := v;
     next_id := next_id st; in_flight := in_flight st;
     taskStatus := taskStatus st; results := results st;
     log := log st |}.

Definition set_in_flight (v : list nat) (st : State) : State :=
  {| taskId := taskId st; now := now st; poll := poll st;
     next_id := next_id st; in_flight := v;
     taskStatus := taskStatus st; results := results st;
     log := log st |}.

Definition emit (e : Effect) (st : State) : State :=
  {| taskId := taskId st; now := now st; poll := poll st;
     next_id := next_id st; in_flight := in_flight st;
     taskStatus := taskStatus st; results := results st;
     log := log st ++ [e] |}.

Definition setResults (v : option (list ModelResult)) (st : State) : State :=
  emit (SetResults v)
    {| taskId := taskId st; now := now st; poll := poll st;
       next_id := next_id st; in_flight := in_flight st;
       taskStatus := taskStatus st; results := v;
       log := log st |}.

Definition setTaskStatus (v : Payload.t) (st : State) : State :=
  emit (SetTaskStatus v)
    {| taskId := taskId st; now := now st; poll := poll st;
       next_id := next_id st; in_flight := in_flight st;
       taskStatus := v; results := results st;
       log := log st |}.

Definition clearInterval (st : State) : State :=
  emit ClearInterval (set_poll None st).

(** The component as first rendered, its effect having just run:
    the timer is armed for one period ahead and nothing has been
    requested. *)
Definition mount (tid : string) : State :=
  {| taskId := tid; now := 0; poll := Some INTERVAL;
     next_id := 0; in_flight := [];
     taskStatus := {| status := "PENDING";
                      meta := Some empty_meta;
                      Payload.results := None |};
     results := None;
     log := [] |}.

(** The timer callback up to its [await]: one [axios.get] is sent.
    [due] is the time the timer fires at. *)
Definition tick (due : Z) (st : State) : State :=
  let id := next_id st in
  emit (Get id (results_url (taskId st)) due)
    {| taskId := taskId st; now := now st;
       poll := Some (due + INTERVAL)%Z;
       next_id := S id; in_flight := in_flight st ++ [id];
       taskStatus := taskStatus st; results := results st;
       log := log st |}.

(** What awaiting [axios.get] yields. *)
Inductive Response : Type :=
| Fulfilled (data : Payload.t)
| Rejected.

(** The callback after its [await]: the rest of the [try] body, or
    the [catch] clause. *)
Definition resume (id : nat) (r : Response) (st : State) : State :=
  match r with
  | Fulfilled data =>
      if String.eqb (status data) "SUCCESS"
      then clearInterval (setResults (Payload.results data) st)
      else setTaskStatus data st
  | Rejected => clearInterval (emit (ConsoleError id) st)
  end.

(** Firing of the armed timer at each of its due times up to
    [target]. *)
Fixpoint fire (fuel : nat) (target : Z) (st : State) : State :=
  match fuel with
  | O => st
  | S fuel' =>
      match poll st with
      | Some due =>
          if (due <=? target)%Z
          then fire fuel' target (tick due st)
          else st
      | None => st
      end
  end.

(** [d] milliseconds pass.  An armed timer is due in the future, so
    at most [d / INTERVAL + 1] of its due times fall within them, and
    that many rounds of [fire] leave none behind. *)
Definition elapse (d : N) (st : State) : State :=
  let target := (now st + Z.of_N d)%Z in
  set_now target
    (fire (S (Z.to_nat (Z.of_N d / INTERVAL))) target st).

Definition pending (id : nat) (st : State) : bool :=
  existsb (Nat.eqb id) (in_flight st).

(** What can happen to a mounted poller: time passes, a request
    that is in flight settles, or the component is torn down and
    the effect's cleanup runs.  When time passes the timer callback
    runs at each due time on the way, each run going as far as its
    [await]; a [Settle] for a request that is not in flight has no
    callback to resume and changes nothing. *)
Inductive Event : Type :=
| Elapse (d : N)
| Settle (id : nat) (r : Response)
| Unmount.

Definition step (st : State) (ev : Event) : State :=
  match ev with
  | Elapse d => elapse d st
  | Settle id r =>
      if pending id st
      then resume id r
             (set_in_flight (List.remove Nat.eq_dec id (in_flight st)) st)
      else st
  | Unmount => clearInterval st
  end.

Definition run (st : State) (evs : list Event) : State :=
  fold_left step evs st.

(** *** Rendering *)

(** [meta?.total ? (meta.current / meta.total) * 100 : 0] *)
Definition progress (ts : Payload.t) : JS.number :=
  match meta ts with
  | Some m =>
      if JS.truthy (total m)
      then JS.mul (JS.div (JS.to_number (current m))
                          (JS.to_number (total m)))
                  (JS.Num 100)
      else JS.Num 0
  | None => JS.Num 0
  end.

(** The share of the track that the bar fills: its width is the
    CSS percentage [progress]. *)
Definition progressFraction (ts : Payload.t) : JS.number :=
  JS.div (progress ts) (JS.Num 100).

(** One table row: the 1-based position shown, whether the row is
    highlighted and carries the trophy, and the entry whose name,
    MAPE and MAE fill the cells. *)
Record Row : Type := {
  position : nat;
  best : bool;
  entry : ModelResult
}.

(** [results.map((res, index) => ...)] *)
Fixpoint rows_from (index : nat) (rs : list ModelResult) : list Row :=
  match rs with
  | [] => []
  | res :: rest =>
      {| position := index + 1; best := Nat.eqb index 0; entry := res |}
      :: rows_from (S index) rest
  end.

Definition rows (rs : list ModelResult) : list Row := rows_from 0 rs.

Inductive View : Type :=
| Analysing (caption : option (string * option JS.number * option JS.number))
            (width : JS.number)
| Leaderboard (table : list Row).

Definition caption_of (m : option ProgressMeta)
  : option (string * option JS.number * option JS.number) :=
  match m with
  | Some m =>
      match JS.nonempty (model m) with
      | Some name => Some (name, current m, total m)
      | None => None
      end
  | None => None
  end.

Definition render (st : State) : View :=
  match results st with
  | None => Analysing (caption_of (meta (taskStatus st)))
                      (progress (taskStatus st))
  | Some rs => Leaderboard (rows rs)
  end.


(** *** Observations on a run *)

Definition is_get (e : Effect) : bool :=
  match e with Get _ _ _ => true | _ => false end.

Definition is_set_results (e : Effect) : bool :=
  match e with SetResults _ => true | _ => false end.

Definition is_setter (e : Effect) : bool :=
  match e with SetResults _ | SetTaskStatus _ => true | _ => false end.

Definition count (p : Effect -> bool) (st : State) : nat :=
  List.length (filter p (log st)).

(** Status requests sent so far. *)
Definition fetches (st : State) : nat := count is_get st.

Definition is_settle (ev : Event) : bool :=
  match ev with Settle _ _ => true | _ => false end.

(** Non-decreasing MAPE from one entry to the next. *)
Definition mape_le (a b : ModelResult) : Prop :=
  (mape (metrics a) <= mape (metrics b))%Q.

(** *** Invariants of a polling session *)

Definition get_in_window (lo hi : Z) (e : Effect) : Prop :=
  match e with
  | Get _ _ t => (lo <= t <= hi)%Z
  | _ => True
  end.

(** Bookkeeping of the timer up to time [horizon]: while armed it
    is due one period after the last request, at most one period
    past the horizon; one request was sent per full period; every
    request was sent at least one period after mounting; and no
    more requests are in flight than were sent. *)
Definition Sound (horizon : Z) (st : State) : Prop :=
  (forall due, poll st = Some due ->
     (due <= horizon + INTERVAL)%Z /\
     due = ((Z.of_nat (fetches st) + 1) * INTERVAL)%Z) /\
  (Z.of_nat (fetches st) * INTERVAL <= horizon)%Z /\
  Forall (get_in_window INTERVAL horizon) (log st) /\
  (List.length (in_flight st) <= fetches st)%nat.

(** States between events: sound at the current time, and an armed
    timer is due in the future. *)
Definition Inv (st : State) : Prop :=
  Sound (now st) st /\
  (forall due, poll st = Some due -> (now st < due)%Z).

End ResultsPage.

(** ** Sample data for the scenarios below *)

Module Scenario.

Import Payload.

Definition csv : HomePage.File := {| HomePage.name := "demand.csv" |}.

Definition idle : HomePage.State :=
  {| HomePage.file := None;
     HomePage.error := EmptyString;
     HomePage.loading := false |}.

Definition chosen : HomePage.State :=
  {| HomePage.file := Some csv;
     HomePage.error := EmptyString;
     HomePage.loading := false |}.

(** A rejection whose body carries [detail]. *)
Definition rejected_with (d : option string) : HomePage.AxiosError :=
  {| HomePage.response :=
       Some {| HomePage.data := Some {| HomePage.detail := d |} |} |}.

(** A rejection without any response (the request never got one). *)
Definition network_down : HomePage.AxiosError :=
  {| HomePage.response := None |}.

Definition A : ModelResult :=
  {| model_name := "A"; metrics := {| mape := 12; mae := 3 |} |}.
Definition B : ModelResult :=
  {| model_name := "B"; metrics := {| mape := 5; mae := 2 |} |}.

Definition running (c t : Z) : Payload.t :=
  {| status := "RUNNING";
     meta := Some {| model := Some "ARIMA"%string;
                     current := Some (JS.Num c);
                     total := Some (JS.Num t) |};
     results := None |}.

(** A progress update that names a total of 3 but no [current]. *)
Definition without_current : Payload.t :=
  {| status := "RUNNING";
     meta := Some {| model := Some "ARIMA"%string;
                     current := None;
                     total := Some (JS.Num 3) |};
     results := None |}.

Definition success (rs : list ModelResult) : Payload.t :=
  {| status := "SUCCESS"; meta := None; results := Some rs |}.

Definition failure : Payload.t :=
  {| status := "FAILURE"; meta := None; results := None |}.

Definition task : string := "42".

(** The poller of task 42 one period after mounting: the first
    request is in flight. *)
Definition polled_once : ResultsPage.State :=
  ResultsPage.run (ResultsPage.mount task) [ResultsPage.Elapse 3000].

(** Two periods after mounting, no response so far. *)
Definition polled_twice : ResultsPage.State :=
  ResultsPage.run (ResultsPage.mount task) [ResultsPage.Elapse 6000].

(** The second of the two requests has failed. *)
Definition second_failed : ResultsPage.State :=
  ResultsPage.run polled_twice
    [ResultsPage.Settle 1 ResultsPage.Rejected].

(** The component was torn down while its first request was in
    flight. *)
Definition torn_down : ResultsPage.State :=
  ResultsPage.run polled_once [ResultsPage.Unmount].

(** The first request was answered with status FAILURE. *)
Definition task_failed : ResultsPage.State :=
  ResultsPage.run polled_once
    [ResultsPage.Settle 0 (ResultsPage.Fulfilled failure)].

(** The first request was answered with the results [A; B]. *)
Definition unsorted_shown : ResultsPage.State :=
  ResultsPage.run polled_once
    [ResultsPage.Settle 0 (ResultsPage.Fulfilled (success [A; B]))].


(** Of two requests in flight the second is answered with the
    results [A; B]; the first is still in flight. *)
Definition shown_with_one_pending : ResultsPage.State :=
  ResultsPage.run polled_twice
    [ResultsPage.Settle 1 (ResultsPage.Fulfilled (success [A; B]))].



End Scenario.

(** ** HomePage: what the form shows *)

Module HomePageView.

Import HomePage.

(** The parts of the form that depend on state: the [disabled]
    attribute and the text of the submit button, and the paragraph
    under it, present when [error] is truthy. *)
Record View : Type := {
  disabled : bool;
  label : string;
  error_line : option string
}.

Definition render (st : State) : View :=
  {| disabled := loading st;
     label := if loading st then "Procesando..." else "Analizar Datos";
     error_line := JS.nonempty (Some (error st)) |}.

End HomePageView.

(** ** ResultsPage: accounting over a session *)

Module Session.

Import Payload ResultsPage.

(** The request numbered [k] of a poller mounted for [tid], as it
    is sent when the timer fires for the [k+1]-th time. *)
Definition expected_get (tid : string) (k : nat) : Effect :=
  Get k (results_url tid) ((Z.of_nat k + 1) * INTERVAL)%Z.

(** An effect by which the callback deals with a settled request:
    one of the two setters in the [try] body, or the console error
    of the [catch] clause. *)
Definition is_handled (e : Effect) : bool :=
  match e with
  | SetResults _ | SetTaskStatus _ | ConsoleError _ => true
  | _ => false
  end.


(** Responses with status SUCCESS, the only events handled with
    [setResults]. *)
Definition is_success (ev : Event) : bool :=
  match ev with
  | Settle _ (Fulfilled data) => String.eqb (status data) "SUCCESS"
  | _ => false
  end.

(** Events whose handling contains no call of [clearInterval]:
    time passing, and responses with a status other than SUCCESS. *)
Definition keeps_polling (ev : Event) : bool :=
  match ev with
  | Elapse _ => true
  | Settle _ (Fulfilled data) => negb (String.eqb (status data) "SUCCESS")
  | Settle _ Rejected => false
  | Unmount => false
  end.

(** The requests of the log are the expected ones, in order, and
    an armed timer is due one period after the last. *)
Definition Scheduled (tid : string) (st : State) : Prop :=
  taskId st = tid /\
  filter is_get (log st) = map (expected_get tid) (seq 0 (next_id st)) /\
  (forall due, poll st = Some due ->
               due = ((Z.of_nat (next_id st) + 1) * INTERVAL)%Z).

(** Requests in flight are distinct and were sent, and every
    request sent is in flight or was handled once. *)
Definition Accounted (st : State) : Prop :=
  NoDup (in_flight st) /\
  Forall (fun id => (id < next_id st)%nat) (in_flight st) /\
  (count is_handled st + List.length (in_flight st) = next_id st)%nat.

End Session.

(** ** ResultsPage: the bar for small step counts *)

Module ProgressTable.

Import Payload ResultsPage.

(** The step counts up to which the bar is checked case by case. *)
Definition LIMIT : nat := 200.

(** A snapshot holding the counters [c] of [t]. *)
Definition counting (c t : JS.number) : Payload.t :=
  {| status := "RUNNING";
     meta := Some {| model := None; current := Some c; total := Some t |};
     Payload.results := None |}.

Definition width_at (t c : nat) : JS.number :=
  progress (counting (JS.Num (Z.of_nat c)) (JS.Num (Z.of_nat t))).

Definition fraction_at (t c : nat) : JS.number :=
  progressFraction
    (counting (JS.Num (Z.of_nat c)) (JS.Num (Z.of_nat t))).

(** [c] of [t] steps with [c <= t]: the width is within [[0,100]]
    and the fraction within [[0,1]], the fraction being the number 0
    at [c = 0] and the number 1 at [c = t]. *)
Definition within_ok (t c : nat) : bool :=
  let w := width_at t c in
  let x := fraction_at t c in
  PrimFloat.leb (JS.Num 0) w && PrimFloat.leb w (JS.Num 100)
  && PrimFloat.leb (JS.Num 0) x && PrimFloat.leb x (JS.Num 1)
  && (if Nat.eqb c 0 then PrimFloat.Leibniz.eqb x (JS.Num 0) else true)
  && (if Nat.eqb c t then PrimFloat.Leibniz.eqb x (JS.Num 1) else true).

(** [c] of [t] steps with [c > t]: the width is above 100 and the
    fraction above 1. *)
Definition beyond_ok (t c : nat) : bool :=
  PrimFloat.ltb (JS.Num 100) (width_at t c)
  && PrimFloat.ltb (JS.Num 1) (fraction_at t c).

Definition row_ok (t : nat) : bool :=
  forallb (within_ok t) (seq 0 (S t))
  && forallb (beyond_ok t) (seq (S t) (LIMIT - t)).

Definition table_ok : bool := forallb row_ok (seq 1 LIMIT).

(** The widths for a smaller range of totals, compared pair by
    pair. *)
Definition SMALL : nat := 50.

Definition grows_ok (t : nat) : bool :=
  forallb
    (fun c2 =>
       forallb (fun c1 => PrimFloat.leb (width_at t c1) (width_at t c2))
               (seq 0 (S c2)))
    (seq 0 (S t))
  && PrimFloat.Leibniz.eqb (width_at t 0) (JS.Num 0)
  && PrimFloat.Leibniz.eqb (width_at t t) (JS.Num 100).

Definition growth_ok : bool := forallb grows_ok (seq 1 SMALL).

End ProgressTable.

(** * Properties of the upload form *)

Section HomePageFacts.

Import HomePage.

Lemma or_else_present (c : Ascii.ascii) (s fallback : string) :
  JS.or_else (Some (String c s)) fallback = String c s.
Proof. reflexivity. Qed.

Lemma submit_suspends_iff_file (st : State) :
  snd (submit st) = file st.
Proof. unfold submit. destruct (file st); reflexivity. Qed.

(** C7.  A submission made while no file is selected ends at the
    guard, before the handler's [await]: the only state change is
    the error message, which is the non-empty text asking for a CSV
    file, and no request is sent, whatever the server would have
    answered. *)
Theorem submit_without_file_stays_local
    (st : State) (outcome : PostOutcome) :
  file st = None ->
  snd (submit st) = None /\
  handleSubmit outcome st = (setError no_file_message st, [PreventDefault]) /\
  error (fst (handleSubmit outcome st)) = no_file_message /\
  no_file_message <> EmptyString /\
  loading (fst (handleSubmit outcome st)) = loading st /\
  network_calls (snd (handleSubmit outcome st)) = 0%nat.
Proof.
  intros Hfile.
  assert (Hs : submit st = (setError no_file_message st, [PreventDefault], None)).
  { unfold submit. rewrite Hfile. reflexivity. }
  unfold handleSubmit. rewrite Hs. cbn.
  repeat split; try reflexivity. discriminate.
Qed.

Lemma submit_without_file_stays_local_witness :
  error (fst (handleSubmit (Created "7") Scenario.idle))
  = "Por favor, selecciona un archivo CSV."%string /\
  network_calls (snd (handleSubmit (Created "7") Scenario.idle)) = 0%nat.
Proof.
  pose proof (submit_without_file_stays_local Scenario.idle (Created "7")
                eq_refl) as H.
  split; apply H.
Defined.

(** With a file selected exactly one request is sent, to the
    process endpoint, carrying that file in the field [file]. *)
Lemma submit_with_file_posts_once
    (st : State) (f : File) (outcome : PostOutcome) :
  file st = Some f ->
  network_calls (snd (handleSubmit outcome st)) = 1%nat /\
  In (Post process_url "file" f) (snd (handleSubmit outcome st)).
Proof.
  intros Hfile. unfold handleSubmit, submit. rewrite Hfile.
  destruct outcome; cbn; split; auto.
Qed.

(** C8, as stated, fails: a rejection whose body has a [detail]
    field holding the empty string shows the generic message, not
    that field. *)
Lemma empty_detail_shows_fallback :
  error_detail (Scenario.rejected_with (Some EmptyString))
  = Some EmptyString /\
  error (fst (handleSubmit
                (Thrown (Scenario.rejected_with (Some EmptyString)))
                Scenario.chosen))
  = upload_failed_message /\
  upload_failed_message <> EmptyString.
Proof. cbn. repeat split. discriminate. Qed.

(** C8, amended.  When the upload is rejected the message shown is
    the [detail] of the error body if that field is present and not
    the empty string, and the generic message if the field is empty,
    or missing at any level of [err.response?.data?.detail]. *)
Theorem failed_upload_message
    (st : State) (f : File) (err : AxiosError) :
  file st = Some f ->
  let st' := fst (handleSubmit (Thrown err) st) in
  (forall d, error_detail err = Some d -> d <> EmptyString -> error st' = d) /\
  (error_detail err = Some EmptyString \/ error_detail err = None ->
   error st' = upload_failed_message) /\
  loading st' = false.
Proof.
  intros Hfile. unfold handleSubmit, submit. rewrite Hfile. cbn.
  repeat split.
  - intros d Hd Hne. rewrite Hd. destruct d; [contradiction | reflexivity].
  - intros [H | H]; rewrite H; reflexivity.
Qed.

Lemma failed_upload_message_witness :
  error (fst (handleSubmit
                (Thrown (Scenario.rejected_with (Some "CSV sin columnas"%string)))
                Scenario.chosen))
  = "CSV sin columnas"%string /\
  error (fst (handleSubmit (Thrown Scenario.network_down) Scenario.chosen))
  = upload_failed_message.
Proof.
  split.
  - apply (failed_upload_message Scenario.chosen Scenario.csv
             (Scenario.rejected_with (Some "CSV sin columnas"%string))
             eq_refl);
      [reflexivity | discriminate].
  - apply (failed_upload_message Scenario.chosen Scenario.csv
             Scenario.network_down eq_refl).
    right. reflexivity.
Defined.

End HomePageFacts.

(** * Properties of the progress bar *)

Section ProgressFacts.

Import Payload ResultsPage.

(** A float that equals zero is a zero. *)
Lemma eqb_zero_is_zero (t : JS.number) :
  PrimFloat.eqb t (JS.Num 0) = true ->
  exists s, Prim2SF t = S754_zero s.
Proof.
  rewrite FloatAxioms.eqb_spec.
  change (Prim2SF (JS.Num 0)) with (S754_zero false).
  destruct (Prim2SF t) as [s | s | | s m e]; cbn;
    try discriminate; try (destruct s; discriminate).
  intros _. exists s. reflexivity.
Qed.

(** A quotient by zero is never a finite number. *)
Lemma div_by_zero_not_finite (a t : JS.number) :
  PrimFloat.eqb t (JS.Num 0) = true ->
  JS.div a t = nan \/ JS.div a t = infinity \/ JS.div a t = neg_infinity.
Proof.
  intros Ht. destruct (eqb_zero_is_zero t Ht) as [s Hs].
  unfold JS.div. rewrite <- (SF2Prim_Prim2SF (a / t)), div_spec, Hs.
  destruct (Prim2SF a) as [sa | sa | | sa m e]; cbn.
  - left. reflexivity.
  - destruct (xorb sa s); [right; right | right; left]; reflexivity.
  - left. reflexivity.
  - destruct (xorb sa s); [right; right | right; left]; reflexivity.
Qed.

(** The value of [progress] when the total is truthy. *)
Lemma progress_with_total (ts : Payload.t) (m : ProgressMeta) :
  meta ts = Some m -> JS.truthy (total m) = true ->
  progress ts
  = JS.mul (JS.div (JS.to_number (current m)) (JS.to_number (total m)))
           (JS.Num 100).
Proof. intros Hm Ht. unfold progress. rewrite Hm, Ht. reflexivity. Qed.

(** Without a usable total ([meta] missing, [total] missing, zero
    or NaN) the bar is empty and nothing is divided. *)
Lemma progress_without_total (ts : Payload.t) :
  (meta ts = None \/
   exists m, meta ts = Some m /\ JS.truthy (total m) = false) ->
  progress ts = JS.Num 0.
Proof.
  unfold progress. intros [H | [m [H Ht]]]; rewrite H; auto.
  rewrite Ht. reflexivity.
Qed.

Lemma zero_is_falsy (t : JS.number) :
  PrimFloat.eqb t (JS.Num 0) = true -> JS.truthy (Some t) = false.
Proof. intros H. unfold JS.truthy. rewrite H. reflexivity. Qed.

(** C6.  When the total is zero the bar's width is exactly the
    number 0, the fraction of the track it fills is zero too, and the
    value comes from the guard, not from a quotient: a quotient by
    this total would be NaN or an infinity. *)
Theorem zero_total_gives_zero_progress
    (ts : Payload.t) (m : ProgressMeta) (t : JS.number) :
  meta ts = Some m -> total m = Some t ->
  PrimFloat.eqb t (JS.Num 0) = true ->
  progress ts = JS.Num 0 /\
  progressFraction ts = JS.Num 0 /\
  (forall a,
      JS.div a (JS.to_number (total m)) = nan \/
      JS.div a (JS.to_number (total m)) = infinity \/
      JS.div a (JS.to_number (total m)) = neg_infinity).
Proof.
  intros Hm Ht Hz.
  assert (Hp : progress ts = JS.Num 0).
  { apply progress_without_total. right. exists m.
    split; [exact Hm |]. rewrite Ht. apply zero_is_falsy. exact Hz. }
  split; [exact Hp |]. split.
  - unfold progressFraction. rewrite Hp. reflexivity.
  - intros a. rewrite Ht. apply div_by_zero_not_finite. exact Hz.
Qed.

Lemma zero_total_gives_zero_progress_witness :
  progress (Scenario.running 0 0) = JS.Num 0.
Proof.
  apply (zero_total_gives_zero_progress (Scenario.running 0 0) _ (JS.Num 0)
           eq_refl eq_refl eq_refl).
Defined.


Lemma progress_of_counting
    (ts : Payload.t) (m : ProgressMeta) (c t : JS.number) :
  meta ts = Some m -> current m = Some c -> total m = Some t ->
  progress ts = progress (ProgressTable.counting c t).
Proof.
  intros Hm Hc Ht. unfold progress. rewrite Hm, Hc, Ht. reflexivity.
Qed.





End ProgressFacts.

(** * Properties of the leaderboard *)

Section LeaderboardFacts.

Import Payload ResultsPage.

Lemma rows_from_entries (rs : list ModelResult) :
  forall index, map entry (rows_from index rs) = rs.
Proof.
  induction rs as [| res rest IH]; intros index; simpl;
    [reflexivity | now rewrite IH].
Qed.

Lemma rows_from_positions (rs : list ModelResult) :
  forall index,
    map position (rows_from index rs) = seq (index + 1) (List.length rs).
Proof.
  induction rs as [| res rest IH]; intros index; simpl; [reflexivity |].
  rewrite IH. reflexivity.
Qed.

Lemma rows_from_later_not_best (rs : list ModelResult) :
  forall index, Forall (fun r => best r = false) (rows_from (S index) rs).
Proof.
  induction rs as [| res rest IH]; intros index; simpl; constructor; auto.
Qed.

(** The table lists the payload entry by entry, in the order
    received: as many rows, the same entries, numbered from 1, and
    only the first row highlighted. *)
Lemma rows_follow_payload (rs : list ModelResult) :
  map entry (rows rs) = rs /\
  List.length (rows rs) = List.length rs /\
  Permutation (map entry (rows rs)) rs /\
  map position (rows rs) = seq 1 (List.length rs) /\
  match rows rs with
  | [] => rs = []
  | first :: others =>
      best first = true /\ Forall (fun r => best r = false) others
  end.
Proof.
  unfold rows. repeat split.
  - apply rows_from_entries.
  - rewrite <- (length_map entry), rows_from_entries. reflexivity.
  - rewrite rows_from_entries. apply Permutation_refl.
  - apply rows_from_positions.
  - destruct rs as [| res rest]; simpl; [reflexivity |].
    split; [reflexivity | apply rows_from_later_not_best].
Qed.

(** A payload that arrives in MAPE order is shown in MAPE order. *)
Lemma sorted_payload_shown_sorted (rs : list ModelResult) :
  Sorted mape_le rs -> Sorted mape_le (map entry (rows rs)).
Proof.
  intros H. unfold rows. rewrite rows_from_entries. exact H.
Qed.

(** A successful response replaces the progress view by the table
    of the entries it carries. *)
Lemma success_renders_payload
    (st : State) (id : nat) (data : Payload.t) (rs : list ModelResult) :
  pending id st = true ->
  status data = "SUCCESS"%string ->
  Payload.results data = Some rs ->
  render (step st (Settle id (Fulfilled data))) = Leaderboard (rows rs).
Proof.
  intros Hp Hs Hr. unfold step. rewrite Hp.
  unfold resume. rewrite Hs. cbn. rewrite Hr. reflexivity.
Qed.

(** C1, on a payload that is not in MAPE order.  The response
    [[A (mape 12); B (mape 5)]] is shown as received: A comes first
    and carries the highlight although B has the lower MAPE, and
    the entries shown are not sorted by MAPE. *)
Theorem unsorted_payload_shown_as_received :
  render Scenario.unsorted_shown
  = Leaderboard
      [ {| position := 1; best := true; entry := Scenario.A |};
        {| position := 2; best := false; entry := Scenario.B |} ] /\
  (mape (metrics Scenario.B) < mape (metrics Scenario.A))%Q /\
  ~ Sorted mape_le [Scenario.A; Scenario.B].
Proof.
  cbn. repeat split.
  intros H. inversion H as [| a l _ Hd]; subst.
  inversion Hd as [| b l' Hab]; subst.
  unfold mape_le in Hab. cbn in Hab.
  unfold Qle in Hab. cbn in Hab. lia.
Qed.

End LeaderboardFacts.

(** * Properties of the poller *)

Section PollerFacts.

Import Payload ResultsPage.

(** ** Effects and counters *)

Lemma count_emit (p : Effect -> bool) (e : Effect) (st : State) :
  count p (emit e st) = (count p st + (if p e then 1 else 0))%nat.
Proof.
  unfold count, emit. cbn. rewrite filter_app, length_app. cbn.
  destruct (p e); reflexivity.
Qed.

Lemma fetches_tick (due : Z) (st : State) :
  fetches (tick due st) = S (fetches st).
Proof.
  unfold fetches, tick. rewrite count_emit. cbn. unfold count. cbn. lia.
Qed.

Lemma fetches_resume (id : nat) (r : Response) (st : State) :
  fetches (resume id r st) = fetches st.
Proof.
  unfold fetches, count, resume, clearInterval, setResults, setTaskStatus,
    emit, set_poll.
  destruct r as [data |]; [destruct (String.eqb _ _) |];
    cbn; rewrite ?filter_app; cbn; rewrite ?app_nil_r; reflexivity.
Qed.

Lemma poll_resume (id : nat) (r : Response) (st : State) :
  poll (resume id r st) = None \/ poll (resume id r st) = poll st.
Proof.
  unfold resume. destruct r as [data |]; [destruct (String.eqb _ _) |];
    cbn; auto.
Qed.

Lemma in_flight_resume (id : nat) (r : Response) (st : State) :
  in_flight (resume id r st) = in_flight st.
Proof.
  unfold resume. destruct r as [data |]; [destruct (String.eqb _ _) |];
    reflexivity.
Qed.

Lemma now_resume (id : nat) (r : Response) (st : State) :
  now (resume id r st) = now st.
Proof.
  unfold resume. destruct r as [data |]; [destruct (String.eqb _ _) |];
    reflexivity.
Qed.

(** ** The timer loop *)

Lemma fire_cleared (fuel : nat) (target : Z) (st : State) :
  poll st = None -> fire fuel target st = st.
Proof. intros H. destruct fuel; cbn; [| rewrite H]; reflexivity. Qed.

(** Firing never touches what the view shows. *)
Lemma fire_keeps_view (fuel : nat) (target : Z) :
  forall st,
    taskStatus (fire fuel target st) = taskStatus st /\
    results (fire fuel target st) = results st /\
    now (fire fuel target st) = now st /\
    taskId (fire fuel target st) = taskId st.
Proof.
  induction fuel as [| fuel IH]; intros st; cbn; [auto |].
  destruct (poll st) as [due |]; [| auto].
  destruct (due <=? target)%Z; [| auto].
  destruct (IH (tick due st)) as (H1 & H2 & H3 & H4).
  rewrite H1, H2, H3, H4. auto.
Qed.

(** With [k] due times at or before [target] and fuel for them,
    the loop sends exactly [k] requests, numbered consecutively,
    and leaves the timer armed for the first due time after
    [target]. *)
Lemma fire_exact (target : Z) (k : nat) :
  forall (fuel : nat) (st : State) (due : Z),
    poll st = Some due ->
    (k <= fuel)%nat ->
    (due + (Z.of_nat k - 1) * INTERVAL <= target
     < due + Z.of_nat k * INTERVAL)%Z ->
    poll (fire fuel target st) = Some (due + Z.of_nat k * INTERVAL)%Z /\
    fetches (fire fuel target st) = (fetches st + k)%nat /\
    in_flight (fire fuel target st) = in_flight st ++ seq (next_id st) k /\
    next_id (fire fuel target st) = (next_id st + k)%nat.
Proof.
  unfold INTERVAL.
  induction k as [| k IH]; intros fuel st due Hp Hf Hw.
  - assert (Hst : fire fuel target st = st).
    { destruct fuel; cbn; [reflexivity |]. rewrite Hp.
      destruct (Z.leb_spec due target); [lia | reflexivity]. }
    rewrite Hst, Hp, app_nil_r. repeat split; auto; f_equal; lia.
  - destruct fuel as [| fuel]; [lia |]. cbn. rewrite Hp.
    destruct (Z.leb_spec due target); [| lia].
    destruct (IH fuel (tick due st) (due + 3000)%Z) as (H1 & H2 & H3 & H4);
      [reflexivity | lia | lia |].
    rewrite H1, H2, H3, H4, fetches_tick. cbn.
    repeat split.
    + f_equal. lia.
    + lia.
    + rewrite <- app_assoc. reflexivity.
    + lia.
Qed.

(** The fuel given by [elapse] is enough: afterwards an armed
    timer is due strictly after [target]. *)
Lemma fire_catches_up (target : Z) (fuel : nat) :
  forall (st : State) (due : Z),
    poll st = Some due ->
    (target < due + Z.of_nat fuel * INTERVAL)%Z ->
    forall due', poll (fire fuel target st) = Some due' ->
                 (target < due')%Z.
Proof.
  unfold INTERVAL.
  induction fuel as [| fuel IH]; intros st due Hp Hb due' Hp'.
  - cbn in Hp'. rewrite Hp in Hp'. injection Hp' as <-. lia.
  - cbn in Hp'. rewrite Hp in Hp'.
    destruct (Z.leb_spec due target).
    + apply (IH (tick due st) (due + 3000)%Z); [reflexivity | lia | exact Hp'].
    + rewrite Hp in Hp'. injection Hp' as <-. lia.
Qed.

End PollerFacts.

(** * Invariants of a polling session *)

Section SessionInvariants.

Import Payload ResultsPage.

Lemma window_widens (lo hi hi' : Z) (e : Effect) :
  (hi <= hi')%Z -> get_in_window lo hi e -> get_in_window lo hi' e.
Proof. intros H. destruct e; cbn; auto. lia. Qed.

Lemma sound_later (T T' : Z) (st : State) :
  (T <= T')%Z -> Sound T st -> Sound T' st.
Proof.
  intros HT (Hp & Hs & Hg & Hb). repeat split; auto; try lia.
  - destruct (Hp due H); lia.
  - destruct (Hp due H); assumption.
  - eapply Forall_impl; [| exact Hg].
    intros e. apply window_widens. exact HT.
Qed.

(** Anything that sends no request, leaves the timer alone or
    clears it, and does not add to the requests in flight keeps the
    bookkeeping sound. *)
Lemma sound_frame (T : Z) (st st' : State) :
  fetches st' = fetches st ->
  poll st' = None \/ poll st' = poll st ->
  (List.length (in_flight st') <= List.length (in_flight st))%nat ->
  Forall (get_in_window INTERVAL T) (log st') ->
  Sound T st -> Sound T st'.
Proof.
  intros Hf Hp Hl Hg (Hp0 & Hs & _ & Hb). unfold Sound. rewrite Hf.
  repeat split; auto; try lia;
    destruct Hp as [Hp | Hp]; rewrite Hp in H; try discriminate;
    destruct (Hp0 due H); assumption.
Qed.

Lemma log_resume (P : Effect -> Prop) (id : nat) (r : Response) (st : State) :
  (forall e, is_get e = false -> P e) ->
  Forall P (log st) -> Forall P (log (resume id r st)).
Proof.
  intros HP H. unfold resume.
  destruct r as [data |]; [destruct (String.eqb _ _) |]; cbn;
    rewrite ?Forall_app; repeat split; auto;
    constructor; auto.
Qed.

Lemma window_non_get (lo hi : Z) (e : Effect) :
  is_get e = false -> get_in_window lo hi e.
Proof. destruct e; cbn; auto. discriminate. Qed.

Lemma sound_settle (T : Z) (st : State) (id : nat) (r : Response) :
  Sound T st ->
  Sound T (resume id r
             (set_in_flight (List.remove Nat.eq_dec id (in_flight st)) st)).
Proof.
  intros H. apply sound_frame with (st := st); auto.
  - rewrite fetches_resume. reflexivity.
  - destruct (poll_resume id r
                (set_in_flight (List.remove Nat.eq_dec id (in_flight st)) st))
      as [Hp | Hp]; rewrite Hp; auto.
  - rewrite in_flight_resume. cbn. apply remove_length_le.
  - apply log_resume; [apply window_non_get |]. apply H.
Qed.

Lemma sound_clearInterval (T : Z) (st : State) :
  Sound T st -> Sound T (clearInterval st).
Proof.
  intros H. apply sound_frame with (st := st); auto.
  - unfold clearInterval, fetches. rewrite count_emit. cbn.
    unfold count. cbn. lia.
  - cbn. rewrite Forall_app. split; [apply H |].
    constructor; [exact I | constructor].
Qed.

Lemma sound_tick (T target due : Z) (st : State) :
  Sound T st -> poll st = Some due ->
  (due <= target)%Z -> (T <= target)%Z ->
  Sound target (tick due st).
Proof.
  unfold Sound. intros (Hp & Hs & Hg & Hb) Hdue Hle HT.
  destruct (Hp due Hdue) as [Hd1 Hd2].
  rewrite fetches_tick. unfold INTERVAL in *. repeat split.
  - cbn in H. unfold INTERVAL in H. injection H as <-. lia.
  - cbn in H. unfold INTERVAL in H. injection H as <-. lia.
  - lia.
  - cbn. rewrite Forall_app. split.
    + eapply Forall_impl; [| exact Hg].
      intros e. apply window_widens. exact HT.
    + constructor; [cbn; lia | constructor].
  - cbn. rewrite length_app. cbn. lia.
Qed.

Lemma sound_fire (target : Z) (fuel : nat) :
  forall (T : Z) (st : State),
    (T <= target)%Z -> Sound T st -> Sound target (fire fuel target st).
Proof.
  induction fuel as [| fuel IH]; intros T st HT H; cbn.
  - apply sound_later with T; assumption.
  - destruct (poll st) as [due |] eqn:Hp.
    + destruct (Z.leb_spec due target).
      * apply IH with target; [lia |].
        apply sound_tick with T; assumption.
      * apply sound_later with T; assumption.
    + apply sound_later with T; assumption.
Qed.

Lemma sound_set_now (T v : Z) (st : State) :
  Sound T st -> Sound T (set_now v st).
Proof. intros H. exact H. Qed.

Lemma elapse_fuel (d : N) :
  (Z.of_N d < Z.of_nat (S (Z.to_nat (Z.of_N d / INTERVAL))) * INTERVAL)%Z.
Proof.
  unfold INTERVAL.
  assert (H : (0 <= Z.of_N d / 3000)%Z) by (apply Z.div_pos; lia).
  rewrite Nat2Z.inj_succ, Z2Nat.id by exact H.
  pose proof (Z.mul_succ_div_gt (Z.of_N d) 3000). lia.
Qed.

Lemma inv_mount (tid : string) : Inv (mount tid).
Proof.
  unfold Inv, Sound. cbn. unfold INTERVAL. repeat split; auto.
  - injection H as <-. lia.
  - injection H as <-. reflexivity.
  - lia.
  - intros due H. injection H as <-. lia.
Qed.

Lemma inv_elapse (st : State) (d : N) : Inv st -> Inv (elapse d st).
Proof.
  intros [Hs Hn]. unfold elapse.
  set (target := (now st + Z.of_N d)%Z).
  set (fuel := S (Z.to_nat (Z.of_N d / INTERVAL))).
  split.
  - change (Sound target (fire fuel target st)).
    apply sound_fire with (now st); [unfold target; lia | exact Hs].
  - change (forall due, poll (fire fuel target st) = Some due ->
                        (target < due)%Z).
    intros due' Hp'.
    destruct (poll st) as [due |] eqn:Hp.
    + eapply fire_catches_up; [exact Hp | | exact Hp'].
      pose proof (elapse_fuel d). specialize (Hn due eq_refl).
      unfold target, fuel. lia.
    + rewrite fire_cleared in Hp' by exact Hp. congruence.
Qed.

Lemma inv_settle (st : State) (id : nat) (r : Response) :
  Inv st ->
  Inv (resume id r
         (set_in_flight (List.remove Nat.eq_dec id (in_flight st)) st)).
Proof.
  intros [Hs Hn]. split.
  - rewrite now_resume.
    change (now (set_in_flight _ st)) with (now st).
    apply sound_settle. exact Hs.
  - intros due Hp. rewrite now_resume.
    change (now (set_in_flight _ st)) with (now st).
    apply Hn.
    destruct (poll_resume id r
                (set_in_flight (List.remove Nat.eq_dec id (in_flight st)) st))
      as [H | H]; rewrite H in Hp; [discriminate | exact Hp].
Qed.

Lemma inv_step (st : State) (ev : Event) : Inv st -> Inv (step st ev).
Proof.
  intros H. destruct ev as [d | id r |]; unfold step.
  - apply inv_elapse. exact H.
  - destruct (pending id st); [apply inv_settle |]; exact H.
  - destruct H as [Hs Hn]. split.
    + apply sound_clearInterval. exact Hs.
    + cbn. discriminate.
Qed.

Lemma inv_run (evs : list Event) :
  forall st, Inv st -> Inv (run st evs).
Proof.
  induction evs as [| ev evs IH]; intros st H; cbn; [exact H |].
  apply IH. apply inv_step. exact H.
Qed.

Lemma run_app (st : State) (evs evs' : list Event) :
  run st (evs ++ evs') = run (run st evs) evs'.
Proof. unfold run. apply fold_left_app. Qed.

End SessionInvariants.

(** * The polling protocol *)

Section ProtocolFacts.

Import Payload ResultsPage.

Lemma fetches_clearInterval (st : State) :
  fetches (clearInterval st) = fetches st.
Proof.
  unfold clearInterval, fetches. rewrite count_emit. cbn.
  unfold count. cbn. lia.
Qed.

(** ** Once the timer is cleared *)

Lemma step_when_cleared (st : State) (ev : Event) :
  poll st = None ->
  poll (step st ev) = None /\ fetches (step st ev) = fetches st.
Proof.
  intros Hp. destruct ev as [d | id r |]; unfold step.
  - unfold elapse. rewrite fire_cleared by exact Hp.
    split; [exact Hp | reflexivity].
  - destruct (pending id st); [| auto]. split.
    + destruct (poll_resume id r
                  (set_in_flight (List.remove Nat.eq_dec id (in_flight st)) st))
        as [H | H]; rewrite H; auto.
    + rewrite fetches_resume. reflexivity.
  - split; [reflexivity | apply fetches_clearInterval].
Qed.

Lemma run_when_cleared (evs : list Event) :
  forall st, poll st = None ->
             poll (run st evs) = None /\ fetches (run st evs) = fetches st.
Proof.
  induction evs as [| ev evs IH]; intros st Hp; [cbn; auto |].
  change (run st (ev :: evs)) with (run (step st ev) evs).
  destruct (step_when_cleared st ev Hp) as [H1 H2].
  destruct (IH (step st ev) H1) as [H3 H4].
  split; [exact H3 | congruence].
Qed.

(** With the timer cleared and nothing in flight the component no
    longer changes what it shows. *)
Lemma step_when_quiet (st : State) (ev : Event) :
  poll st = None -> in_flight st = [] ->
  poll (step st ev) = None /\ in_flight (step st ev) = [] /\
  results (step st ev) = results st /\
  taskStatus (step st ev) = taskStatus st.
Proof.
  intros Hp Hf. destruct ev as [d | id r |]; unfold step.
  - unfold elapse. rewrite fire_cleared by exact Hp. cbn. auto.
  - unfold pending. rewrite Hf. cbn. auto.
  - cbn. auto.
Qed.

Lemma run_when_quiet (evs : list Event) :
  forall st, poll st = None -> in_flight st = [] ->
             results (run st evs) = results st /\
             taskStatus (run st evs) = taskStatus st.
Proof.
  induction evs as [| ev evs IH]; intros st Hp Hf; [cbn; auto |].
  change (run st (ev :: evs)) with (run (step st ev) evs).
  destruct (step_when_quiet st ev Hp Hf) as (H1 & H2 & H3 & H4).
  destruct (IH (step st ev) H1 H2) as [H5 H6].
  split; congruence.
Qed.

(** ** What a response does *)

(** A successful response stores the results it carries, calls
    [setResults] once and clears the timer; no request is sent
    afterwards. *)
Lemma success_stops_polling (st : State) (id : nat) (data : Payload.t) :
  pending id st = true ->
  status data = "SUCCESS"%string ->
  let st' := step st (Settle id (Fulfilled data)) in
  results st' = Payload.results data /\
  log st' = log st ++ [SetResults (Payload.results data); ClearInterval] /\
  count is_set_results st' = S (count is_set_results st) /\
  poll st' = None /\
  forall evs, fetches (run st' evs) = fetches st.
Proof.
  intros Hp Hs st'.
  set (st0 := set_in_flight (List.remove Nat.eq_dec id (in_flight st)) st).
  assert (Hst : st' = clearInterval (setResults (Payload.results data) st0)).
  { unfold st', step. rewrite Hp. unfold resume. rewrite Hs. reflexivity. }
  clearbody st'. subst st'. repeat split.
  - cbn. rewrite <- app_assoc. reflexivity.
  - unfold count, clearInterval, setResults, emit, set_poll. cbn.
    rewrite !filter_app, !length_app. cbn. lia.
  - intros evs.
    destruct (run_when_cleared evs
                (clearInterval (setResults (Payload.results data) st0))
                eq_refl) as [_ H].
    rewrite H, fetches_clearInterval.
    unfold fetches, setResults. rewrite count_emit. cbn.
    unfold count. cbn. lia.
Qed.

(** Any other response, whatever its status, is stored as the new
    snapshot and leaves the timer as it is. *)
Lemma other_status_keeps_polling (st : State) (id : nat) (data : Payload.t) :
  pending id st = true ->
  status data <> "SUCCESS"%string ->
  let st' := step st (Settle id (Fulfilled data)) in
  taskStatus st' = data /\
  results st' = results st /\
  poll st' = poll st /\
  log st' = log st ++ [SetTaskStatus data].
Proof.
  intros Hp Hs st'.
  assert (Hst : st' = setTaskStatus data
                        (set_in_flight
                           (List.remove Nat.eq_dec id (in_flight st)) st)).
  { unfold st', step. rewrite Hp. unfold resume.
    destruct (String.eqb_spec (status data) "SUCCESS");
      [contradiction | reflexivity]. }
  rewrite Hst. repeat split.
Qed.

(** ** Whole periods *)

Lemma elapse_periods (st : State) (n : nat) (due : Z) :
  poll st = Some due ->
  due = (now st + INTERVAL)%Z ->
  let st' := elapse (N.of_nat n * 3000) st in
  poll st' = Some (due + Z.of_nat n * INTERVAL)%Z /\
  fetches st' = (fetches st + n)%nat /\
  in_flight st' = in_flight st ++ seq (next_id st) n /\
  now st' = (now st + Z.of_nat n * INTERVAL)%Z.
Proof.
  intros Hp Hd. unfold elapse.
  set (target := (now st + Z.of_N (N.of_nat n * 3000))%Z).
  set (fuel := S (Z.to_nat (Z.of_N (N.of_nat n * 3000) / INTERVAL))).
  assert (Hfuel : fuel = S n).
  { unfold fuel, INTERVAL. f_equal.
    replace (Z.of_N (N.of_nat n * 3000)) with (Z.of_nat n * 3000)%Z by lia.
    rewrite Z.div_mul by lia. lia. }
  destruct (fire_exact target n fuel st due Hp) as (H1 & H2 & H3 & _).
  - lia.
  - unfold target, INTERVAL in *. lia.
  - cbn. repeat split; try assumption.
    unfold target, INTERVAL. lia.
Qed.

End ProtocolFacts.

(** * Stopping, failing and overlapping *)

Section PollerClaims.

Import Payload ResultsPage.

(** C2, on a FAILURE response.  The first request is answered with
    status FAILURE: the response is stored as an ordinary snapshot,
    [setResults] and [clearInterval] are not called, the view still
    shows the progress bar with nothing about an error, the timer
    stays armed, and one more request is sent at every later
    period. *)
Theorem failure_status_keeps_polling :
  taskStatus Scenario.task_failed = Scenario.failure /\
  results Scenario.task_failed = None /\
  render Scenario.task_failed = Analysing None (JS.Num 0) /\
  log Scenario.task_failed
  = [Get 0 "http://localhost:8000/api/results/42" 3000;
     SetTaskStatus Scenario.failure] /\
  count is_set_results Scenario.task_failed = 0%nat /\
  ~ In ClearInterval (log Scenario.task_failed) /\
  poll Scenario.task_failed = Some 6000%Z /\
  forall n,
    fetches (run Scenario.task_failed [Elapse (N.of_nat n * 3000)])
    = (1 + n)%nat.
Proof.
  repeat split.
  - cbn. intros [H | [H | []]]; discriminate.
  - intros n.
    destruct (elapse_periods Scenario.task_failed n 6000 eq_refl eq_refl)
      as (_ & H & _).
    exact H.
Qed.

(** C3, as stated, fails.  With two requests in flight a failed
    query clears the timer; the response of the other request
    arrives afterwards and is handed to [setTaskStatus], replacing
    the snapshot.  The same call is made when the response arrives
    after the cleanup of the effect has run. *)
Lemma late_response_applied_after_stop :
  poll Scenario.second_failed = None /\
  pending 0 Scenario.second_failed = true /\
  taskStatus
    (step Scenario.second_failed
          (Settle 0 (Fulfilled (Scenario.running 1 3))))
  = Scenario.running 1 3 /\
  taskStatus Scenario.second_failed <> Scenario.running 1 3 /\
  count is_setter
    (step Scenario.second_failed
          (Settle 0 (Fulfilled (Scenario.running 1 3))))
  = S (count is_setter Scenario.second_failed) /\
  poll Scenario.torn_down = None /\
  count is_setter
    (step Scenario.torn_down
          (Settle 0 (Fulfilled (Scenario.running 1 3))))
  = S (count is_setter Scenario.torn_down).
Proof. cbn. repeat split. discriminate. Qed.

(** C3, amended.  Once the timer is cleared, by the cleanup, by a
    SUCCESS response or by a failed query, it never fires again: it
    stays cleared and no further request is sent, whatever happens
    next.  Responses to requests sent before are not discarded:
    each is still handed to [setResults] or [setTaskStatus] when it
    arrives. *)
Theorem cleared_timer_sends_nothing (st : State) (evs : list Event) :
  poll st = None ->
  poll (run st evs) = None /\
  fetches (run st evs) = fetches st /\
  poll (step (run st evs) Unmount) = None /\
  (forall id data,
      pending id (run st evs) = true ->
      status data <> "SUCCESS"%string ->
      taskStatus (step (run st evs) (Settle id (Fulfilled data))) = data) /\
  (forall id data,
      pending id (run st evs) = true ->
      status data = "SUCCESS"%string ->
      results (step (run st evs) (Settle id (Fulfilled data)))
      = Payload.results data).
Proof.
  intros Hp. destruct (run_when_cleared evs st Hp) as [H1 H2].
  repeat split; auto.
  - intros id data Hpend Hs.
    apply (other_status_keeps_polling (run st evs) id data Hpend Hs).
  - intros id data Hpend Hs.
    apply (success_stops_polling (run st evs) id data Hpend Hs).
Qed.

Lemma cleared_timer_sends_nothing_witness :
  poll Scenario.torn_down = None /\
  fetches (run Scenario.torn_down [Elapse 9000]) = 1%nat /\
  taskStatus (step (run Scenario.torn_down [Elapse 9000])
                   (Settle 0 (Fulfilled (Scenario.running 2 3))))
  = Scenario.running 2 3.
Proof.
  destruct (cleared_timer_sends_nothing Scenario.torn_down [Elapse 9000]
              eq_refl)
    as (_ & H2 & _ & H4 & _).
  split; [reflexivity |]. split; [exact H2 |].
  apply H4; [reflexivity | discriminate].
Defined.

(** C4, as stated, fails.  The second of two requests in flight
    fails: the error goes to the console and the timer is cleared,
    but the view shows the same progress bar as before, without any
    error; the first request then succeeds and its results are
    stored and shown. *)
Lemma success_reached_after_failed_query :
  In (ConsoleError 1) (log Scenario.second_failed) /\
  poll Scenario.second_failed = None /\
  render Scenario.second_failed = render (mount Scenario.task) /\
  results
    (step Scenario.second_failed
          (Settle 0 (Fulfilled (Scenario.success [Scenario.B]))))
  = Some [Scenario.B] /\
  render
    (step Scenario.second_failed
          (Settle 0 (Fulfilled (Scenario.success [Scenario.B]))))
  = Leaderboard [ {| position := 1; best := true; entry := Scenario.B |} ].
Proof. cbn. repeat split. right. right. left. reflexivity. Qed.

(** C4, amended.  When a status query fails the handler writes the
    error to the console and clears the timer, and does nothing
    else: the snapshot, the results and hence the view are those
    from before the failure, so nothing about the failure is shown.
    No request is sent afterwards, so the query is not retried.
    Requests still in flight are not cancelled; when the failed one
    was the only one, the results never change again. *)
Theorem failed_query_stops_polling (st : State) (id : nat) :
  pending id st = true ->
  let st' := step st (Settle id Rejected) in
  log st' = log st ++ [ConsoleError id; ClearInterval] /\
  poll st' = None /\
  taskStatus st' = taskStatus st /\
  results st' = results st /\
  render st' = render st /\
  (forall evs, fetches (run st' evs) = fetches st) /\
  (in_flight st = [id] ->
   forall evs, results (run st' evs) = results st).
Proof.
  intros Hp st'.
  set (st0 := set_in_flight (List.remove Nat.eq_dec id (in_flight st)) st).
  assert (Hst : st' = clearInterval (emit (ConsoleError id) st0)).
  { unfold st', step. rewrite Hp. reflexivity. }
  clearbody st'. subst st'. repeat split.
  - cbn. rewrite <- app_assoc. reflexivity.
  - intros evs.
    destruct (run_when_cleared evs
                (clearInterval (emit (ConsoleError id) st0)) eq_refl)
      as [_ H].
    rewrite H, fetches_clearInterval.
    unfold fetches. rewrite count_emit. cbn. unfold count. cbn. lia.
  - intros Hone evs.
    destruct (run_when_quiet evs
                (clearInterval (emit (ConsoleError id) st0)) eq_refl)
      as [H _].
    + cbn. rewrite Hone. cbn.
      destruct (Nat.eq_dec id id); [reflexivity | contradiction].
    + rewrite H. reflexivity.
Qed.

Lemma failed_query_stops_polling_witness :
  log (step Scenario.polled_once (Settle 0 Rejected))
  = log Scenario.polled_once ++ [ConsoleError 0; ClearInterval] /\
  fetches (run (step Scenario.polled_once (Settle 0 Rejected))
               [Elapse 30000]) = 1%nat /\
  results (run (step Scenario.polled_once (Settle 0 Rejected))
               [Elapse 30000; Unmount]) = None.
Proof.
  destruct (failed_query_stops_polling Scenario.polled_once 0 eq_refl)
    as (H1 & _ & _ & _ & _ & H6 & H7).
  split; [exact H1 |]. split; [apply H6 |].
  apply (H7 eq_refl).
Defined.

(** C9, as stated, fails.  After two periods without a response
    two requests are in flight. *)
Lemma two_fetches_in_flight :
  in_flight Scenario.polled_twice = [0%nat; 1%nat] /\
  log Scenario.polled_twice
  = [Get 0 "http://localhost:8000/api/results/42" 3000;
     Get 1 "http://localhost:8000/api/results/42" 6000].
Proof. cbn. split; reflexivity. Qed.

(** C9, amended.  Each firing of the timer sends exactly one
    request and does not wait for earlier ones: left without
    responses for [n] periods, the poller has [n] requests in
    flight.  The requests in flight never outnumber the requests
    sent, of which there is at most one per elapsed period; and
    when nothing is in flight, at most one request is sent within
    the next period. *)
Theorem ticks_do_not_wait (tid : string) :
  (forall due st,
      in_flight (tick due st) = in_flight st ++ [next_id st] /\
      fetches (tick due st) = S (fetches st)) /\
  (forall n,
      in_flight (run (mount tid) [Elapse (N.of_nat n * 3000)]) = seq 0 n) /\
  (forall evs,
      (List.length (in_flight (run (mount tid) evs))
       <= fetches (run (mount tid) evs))%nat /\
      (Z.of_nat (fetches (run (mount tid) evs)) * INTERVAL
       <= now (run (mount tid) evs))%Z) /\
  (forall evs d,
      in_flight (run (mount tid) evs) = [] ->
      (d <= 3000)%N ->
      (List.length (in_flight (run (mount tid) (evs ++ [Elapse d]))) <= 1)%nat).
Proof.
  split; [| split; [| split]].
  - intros due st. split; [reflexivity | apply fetches_tick].
  - intros n.
    destruct (elapse_periods (mount tid) n INTERVAL eq_refl eq_refl)
      as (_ & _ & H & _).
    exact H.
  - intros evs.
    destruct (inv_run evs (mount tid) (inv_mount tid))
      as [(_ & H1 & _ & H2) _].
    split; assumption.
  - intros evs d Hnone Hd. rewrite run_app.
    set (st := run (mount tid) evs) in *.
    destruct (inv_run evs (mount tid) (inv_mount tid)) as [(Hs & _) Hn].
    fold st in Hs, Hn.
    change (run st [Elapse d]) with (elapse d st). unfold elapse.
    change (in_flight (set_now ?v ?s)) with (in_flight s).
    destruct (poll st) as [due |] eqn:Hp.
    + specialize (Hn due eq_refl).
      destruct (Hs due eq_refl) as [Hs1 _]. unfold INTERVAL in Hs1.
      destruct (Z.leb_spec due (now st + Z.of_N d)) as [Hle | Hgt].
      * destruct (fire_exact (now st + Z.of_N d) 1
                    (S (Z.to_nat (Z.of_N d / INTERVAL))) st due Hp)
          as (_ & _ & H & _);
          [lia | unfold INTERVAL; lia |].
        rewrite H, Hnone. cbn. lia.
      * destruct (fire_exact (now st + Z.of_N d) 0
                    (S (Z.to_nat (Z.of_N d / INTERVAL))) st due Hp)
          as (_ & _ & H & _);
          [lia | unfold INTERVAL; lia |].
        rewrite H, Hnone. cbn. lia.
    + rewrite fire_cleared by exact Hp. rewrite Hnone. cbn. lia.
Qed.

Lemma ticks_do_not_wait_witness :
  in_flight (run (mount Scenario.task) [Elapse (N.of_nat 4 * 3000)])
  = [0; 1; 2; 3]%nat /\
  (List.length
     (in_flight (run (mount Scenario.task) ([Elapse 2000] ++ [Elapse 2500])))
   <= 1)%nat.
Proof.
  destruct (ticks_do_not_wait Scenario.task) as (_ & H2 & _ & H4).
  split; [apply (H2 4%nat) |].
  apply H4; [reflexivity | lia].
Defined.

End PollerClaims.

(** * Before the first response *)

Section FirstPeriod.

Import Payload ResultsPage.

Lemma step_without_settle (st : State) (ev : Event) :
  is_settle ev = false ->
  taskStatus (step st ev) = taskStatus st /\
  results (step st ev) = results st.
Proof.
  intros H. destruct ev as [d | id r |]; [| discriminate | cbn; auto].
  unfold step, elapse.
  destruct (fire_keeps_view
              (S (Z.to_nat (Z.of_N d / INTERVAL)))
              (now st + Z.of_N d) st) as (H1 & H2 & _).
  split; [exact H1 | exact H2].
Qed.

Lemma run_without_settle (evs : list Event) :
  forall st,
    forallb (fun ev => negb (is_settle ev)) evs = true ->
    taskStatus (run st evs) = taskStatus st /\
    results (run st evs) = results st.
Proof.
  induction evs as [| ev evs IH]; intros st H; [cbn; auto |].
  change (run st (ev :: evs)) with (run (step st ev) evs).
  cbn in H. apply andb_true_iff in H. destruct H as [Hev Hevs].
  apply negb_true_iff in Hev.
  destruct (step_without_settle st ev Hev) as [H1 H2].
  destruct (IH (step st ev) Hevs) as [H3 H4].
  split; congruence.
Qed.







End FirstPeriod.

(** * The upload form from selection to navigation *)

Section UploadFlow.

Import HomePage.

(** X1.  After a selection of one or more files the error is
    cleared and a submission posts the first of them, once, in the
    field [file] of a request to the process endpoint, whatever was
    selected or shown before. *)
Theorem chosen_file_is_posted
    (f : File) (rest : list File) (st : State) (outcome : PostOutcome) :
  error (handleFileChange (f :: rest) st) = EmptyString /\
  file (handleFileChange (f :: rest) st) = Some f /\
  filter is_post (snd (handleSubmit outcome (handleFileChange (f :: rest) st)))
  = [Post process_url "file" f].
Proof. destruct outcome; repeat split. Qed.

(** X2.  A change event with an empty selection forgets the file
    chosen before: the next submission stops at the guard with the
    message asking for a file, and sends nothing. *)
Theorem emptied_selection_blocks_submit (st : State) (outcome : PostOutcome) :
  file (handleFileChange [] st) = None /\
  handleSubmit outcome (handleFileChange [] st)
  = ({| file := None; error := no_file_message; loading := loading st |},
     [PreventDefault]) /\
  network_calls (snd (handleSubmit outcome (handleFileChange [] st))) = 0%nat.
Proof. repeat split. Qed.

(** X3.  The handler navigates in one case only: a file was selected
    and the request was answered with a task id; the target is then
    the results route of that id.  It never navigates at the guard
    or after a rejected request. *)
Theorem navigates_only_after_created
    (st : State) (outcome : PostOutcome) (path : string) :
  In (Navigate path) (snd (handleSubmit outcome st)) <->
  exists f task_id,
    file st = Some f /\ outcome = Created task_id /\
    path = ("/results/" ++ task_id)%string.
Proof.
  unfold handleSubmit, submit.
  destruct (file st) as [f |]; destruct outcome as [tid | err]; cbn; split.
  - intros [H | [H | [H | []]]]; try discriminate.
    injection H as <-. exists f, tid. auto.
  - intros (f' & tid' & _ & Ho & ->). injection Ho as <-. auto.
  - intros [H | [H | []]]; discriminate.
  - intros (f' & tid' & _ & Ho & _). discriminate.
  - intros [H | []]; discriminate.
  - intros (f' & tid' & Hf & _). discriminate.
  - intros [H | []]; discriminate.
  - intros (f' & tid' & Hf & _). discriminate.
Qed.

(** X4.  While the request is in flight the button is disabled,
    reads "Procesando..." and no error paragraph is shown, even if
    one was shown before; once the request has been rejected the
    button is enabled again with its usual text and the file is
    still selected, ready to be sent again. *)
Theorem button_tracks_request
    (st : State) (f : File) (err : AxiosError) :
  file st = Some f ->
  HomePageView.render (fst (fst (submit st)))
  = {| HomePageView.disabled := true;
       HomePageView.label := "Procesando...";
       HomePageView.error_line := None |} /\
  HomePageView.disabled
    (HomePageView.render (fst (handleSubmit (Thrown err) st)))
  = false /\
  HomePageView.label
    (HomePageView.render (fst (handleSubmit (Thrown err) st)))
  = "Analizar Datos"%string /\
  file (fst (handleSubmit (Thrown err) st)) = Some f /\
  filter is_post
    (snd (handleSubmit (Thrown err) (fst (handleSubmit (Thrown err) st))))
  = [Post process_url "file" f].
Proof.
  intros Hf. unfold handleSubmit, submit. rewrite Hf. cbn.
  rewrite Hf. repeat split; exact Hf.
Qed.

Lemma button_tracks_request_witness :
  HomePageView.render
    (fst (fst (submit (setError "antes" Scenario.chosen))))
  = {| HomePageView.disabled := true;
       HomePageView.label := "Procesando...";
       HomePageView.error_line := None |} /\
  HomePageView.disabled
    (HomePageView.render
       (fst (handleSubmit (Thrown Scenario.network_down)
                          (setError "antes" Scenario.chosen))))
  = false.
Proof.
  destruct (button_tracks_request (setError "antes" Scenario.chosen)
              Scenario.csv Scenario.network_down eq_refl)
    as (H1 & H2 & _).
  split; [exact H1 | exact H2].
Defined.

(** X5.  What is left under the button after a submission with a
    file selected: nothing after a request that succeeded, whatever
    was shown before, and a message that is not empty after one that
    was rejected. *)
Theorem error_line_after_upload (st : State) (f : File) :
  file st = Some f ->
  (forall task_id,
      HomePageView.error_line
        (HomePageView.render (fst (handleSubmit (Created task_id) st)))
      = None) /\
  (forall err,
      exists c msg,
        HomePageView.error_line
          (HomePageView.render (fst (handleSubmit (Thrown err) st)))
        = Some (String c msg)).
Proof.
  intros Hf. unfold handleSubmit, submit. rewrite Hf. split.
  - intros tid. reflexivity.
  - intros err. cbn.
    destruct (error_detail err) as [[| c msg] |]; cbn; eauto.
Qed.

Lemma error_line_after_upload_witness :
  HomePageView.error_line
    (HomePageView.render
       (fst (handleSubmit (Created "7") (setError "antes" Scenario.chosen))))
  = None.
Proof.
  apply (error_line_after_upload (setError "antes" Scenario.chosen)
           Scenario.csv eq_refl).
Defined.

End UploadFlow.

(** * Accounting over a session *)

Section SessionAccounting.

Import Payload ResultsPage Session.

Lemma gets_resume (id : nat) (r : Response) (st : State) :
  filter is_get (log (resume id r st)) = filter is_get (log st).
Proof.
  unfold resume, clearInterval, setResults, setTaskStatus, emit, set_poll.
  destruct r as [data |]; [destruct (String.eqb _ _) |];
    cbn; rewrite ?filter_app; cbn; rewrite ?app_nil_r; reflexivity.
Qed.

Lemma next_id_resume (id : nat) (r : Response) (st : State) :
  next_id (resume id r st) = next_id st /\ taskId (resume id r st) = taskId st.
Proof.
  unfold resume. destruct r as [data |]; [destruct (String.eqb _ _) |];
    split; reflexivity.
Qed.

Lemma handled_resume (id : nat) (r : Response) (st : State) :
  count is_handled (resume id r st) = S (count is_handled st).
Proof.
  unfold count, resume, clearInterval, setResults, setTaskStatus, emit,
    set_poll.
  destruct r as [data |]; [destruct (String.eqb _ _) |];
    cbn; rewrite ?filter_app, ?length_app; cbn; lia.
Qed.

(** ** The schedule *)

Lemma scheduled_mount (tid : string) : Scheduled tid (mount tid).
Proof.
  unfold Scheduled. cbn. repeat split.
  intros due H. injection H as <-. reflexivity.
Qed.

Lemma scheduled_tick (tid : string) (due : Z) (st : State) :
  Scheduled tid st -> poll st = Some due -> Scheduled tid (tick due st).
Proof.
  intros (Ht & Hg & Hp) Hdue. unfold Scheduled.
  change (taskId (tick due st)) with (taskId st).
  change (next_id (tick due st)) with (S (next_id st)).
  change (poll (tick due st)) with (Some (due + INTERVAL)%Z).
  change (log (tick due st))
    with (log st ++ [Get (next_id st) (results_url (taskId st)) due]).
  split; [exact Ht |]. split.
  - rewrite filter_app, Hg, seq_S, map_app. cbn.
    unfold expected_get. rewrite Ht, (Hp due Hdue). reflexivity.
  - intros due' H. injection H as <-. rewrite (Hp due Hdue).
    unfold INTERVAL. lia.
Qed.

Lemma scheduled_fire (tid : string) (target : Z) (fuel : nat) :
  forall st, Scheduled tid st -> Scheduled tid (fire fuel target st).
Proof.
  induction fuel as [| fuel IH]; intros st H; cbn; [exact H |].
  destruct (poll st) as [due |] eqn:Hp; [| exact H].
  destruct (due <=? target)%Z; [| exact H].
  apply IH. apply scheduled_tick; assumption.
Qed.

Lemma scheduled_frame (tid : string) (st st' : State) :
  taskId st' = taskId st ->
  next_id st' = next_id st ->
  filter is_get (log st') = filter is_get (log st) ->
  poll st' = None \/ poll st' = poll st ->
  Scheduled tid st -> Scheduled tid st'.
Proof.
  intros Ht Hn Hg Hp (H1 & H2 & H3). unfold Scheduled.
  rewrite Ht, Hn, Hg. repeat split; auto.
  intros due H. destruct Hp as [Hp | Hp]; rewrite Hp in H;
    [discriminate | auto].
Qed.

Lemma scheduled_step (tid : string) (st : State) (ev : Event) :
  Scheduled tid st -> Scheduled tid (step st ev).
Proof.
  intros H. destruct ev as [d | id r |]; unfold step.
  - unfold elapse.
    apply scheduled_frame
      with (st := fire (S (Z.to_nat (Z.of_N d / INTERVAL)))
                       (now st + Z.of_N d) st);
      auto.
    apply scheduled_fire. exact H.
  - destruct (pending id st); [| exact H].
    set (st0 := set_in_flight (List.remove Nat.eq_dec id (in_flight st)) st).
    apply scheduled_frame with (st := st); auto.
    + apply (next_id_resume id r st0).
    + apply (next_id_resume id r st0).
    + apply (gets_resume id r st0).
    + apply (poll_resume id r st0).
  - apply scheduled_frame with (st := st); auto.
    cbn. rewrite filter_app. cbn. apply app_nil_r.
Qed.

Lemma scheduled_run (tid : string) (evs : list Event) :
  forall st, Scheduled tid st -> Scheduled tid (run st evs).
Proof.
  induction evs as [| ev evs IH]; intros st H; [exact H |].
  change (run st (ev :: evs)) with (run (step st ev) evs).
  apply IH. apply scheduled_step. exact H.
Qed.

Lemma scheduled_fetches (tid : string) (st : State) :
  Scheduled tid st -> fetches st = next_id st.
Proof.
  intros (_ & Hg & _). unfold fetches, count.
  rewrite Hg, length_map, length_seq. reflexivity.
Qed.

(** ** Requests in flight *)

Lemma remove_one (id : nat) (l : list nat) :
  NoDup l -> In id l ->
  S (List.length (List.remove Nat.eq_dec id l)) = List.length l.
Proof.
  induction l as [| x l IH]; intros Hnd Hin; [contradiction |].
  inversion Hnd as [| y l' Hx Hl]; subst. cbn.
  destruct (Nat.eq_dec id x) as [-> | Hne].
  - rewrite notin_remove by exact Hx. reflexivity.
  - cbn. f_equal. apply IH; [exact Hl |].
    destruct Hin as [H | H]; [congruence | exact H].
Qed.

Lemma remove_keeps_nodup (id : nat) (l : list nat) :
  NoDup l -> NoDup (List.remove Nat.eq_dec id l).
Proof.
  induction l as [| x l IH]; intros Hnd; cbn; [constructor |].
  inversion Hnd as [| y l' Hx Hl]; subst.
  destruct (Nat.eq_dec id x); [auto |].
  constructor; [| auto].
  intros H. apply in_remove in H. apply Hx, H.
Qed.

Lemma remove_keeps_forall (P : nat -> Prop) (id : nat) (l : list nat) :
  Forall P l -> Forall P (List.remove Nat.eq_dec id l).
Proof.
  rewrite !Forall_forall. intros H x Hx.
  apply in_remove in Hx. apply H, Hx.
Qed.

Lemma pending_in (id : nat) (st : State) :
  pending id st = true <-> In id (in_flight st).
Proof.
  unfold pending. rewrite existsb_exists. split.
  - intros (x & Hx & He). apply Nat.eqb_eq in He. subst. exact Hx.
  - intros H. exists id. split; [exact H | apply Nat.eqb_refl].
Qed.

Lemma accounted_mount (tid : string) : Accounted (mount tid).
Proof. unfold Accounted. cbn. repeat split; constructor. Qed.

Lemma accounted_tick (due : Z) (st : State) :
  Accounted st -> Accounted (tick due st).
Proof.
  intros (Hnd & Hlt & Hc). unfold Accounted. cbn. repeat split.
  - apply NoDup_app; [exact Hnd | repeat constructor; intros [] |].
    intros a Ha [<- | []].
    rewrite Forall_forall in Hlt. specialize (Hlt _ Ha). lia.
  - rewrite Forall_app. split.
    + eapply Forall_impl; [| exact Hlt]. cbn. intros. lia.
    + repeat constructor.
  - unfold count in *. cbn. rewrite filter_app, !length_app. cbn. lia.
Qed.

Lemma accounted_fire (target : Z) (fuel : nat) :
  forall st, Accounted st -> Accounted (fire fuel target st).
Proof.
  induction fuel as [| fuel IH]; intros st H; cbn; [exact H |].
  destruct (poll st) as [due |]; [| exact H].
  destruct (due <=? target)%Z; [| exact H].
  apply IH. apply accounted_tick. exact H.
Qed.

Lemma accounted_step (st : State) (ev : Event) :
  Accounted st -> Accounted (step st ev).
Proof.
  intros H. destruct ev as [d | id r |]; unfold step.
  - unfold elapse.
    apply (accounted_fire (now st + Z.of_N d)
             (S (Z.to_nat (Z.of_N d / INTERVAL))) st H).
  - destruct (pending id st) eqn:Hp; [| exact H].
    apply pending_in in Hp. destruct H as (Hnd & Hlt & Hc).
    set (st0 := set_in_flight (List.remove Nat.eq_dec id (in_flight st)) st).
    unfold Accounted.
    rewrite in_flight_resume, handled_resume.
    destruct (next_id_resume id r st0) as [-> _]. cbn.
    repeat split.
    + apply remove_keeps_nodup. exact Hnd.
    + apply remove_keeps_forall. exact Hlt.
    + pose proof (remove_one id (in_flight st) Hnd Hp).
      unfold count in *. cbn in *. lia.
  - destruct H as (Hnd & Hlt & Hc). unfold Accounted. cbn.
    repeat split; auto.
    unfold count in *. cbn. rewrite filter_app, length_app. cbn. lia.
Qed.

Lemma accounted_run (evs : list Event) :
  forall st, Accounted st -> Accounted (run st evs).
Proof.
  induction evs as [| ev evs IH]; intros st H; [exact H |].
  change (run st (ev :: evs)) with (run (step st ev) evs).
  apply IH. apply accounted_step. exact H.
Qed.

End SessionAccounting.

(** * The schedule and the books of a session *)

Section SessionFacts.

Import Payload ResultsPage Session.

(** X6.  Whatever happens during a session, the requests sent are
    numbered from 0 in the order sent, all go to the results URL of
    the task the component was mounted for, and request [k] leaves
    exactly [k + 1] periods after mounting. *)
Theorem requests_follow_schedule (tid : string) (evs : list Event) :
  filter is_get (log (run (mount tid) evs))
  = map (expected_get tid) (seq 0 (fetches (run (mount tid) evs))).
Proof.
  pose proof (scheduled_run tid evs (mount tid) (scheduled_mount tid)) as H.
  rewrite (scheduled_fetches tid _ H). apply H.
Qed.

(** X7.  At any point of a session the requests in flight are
    distinct and each of them was sent, and the books balance: the
    responses dealt with so far (calls of [setResults], of
    [setTaskStatus] and console errors) and the requests in flight
    add up to the number of requests sent. *)
Theorem every_request_accounted (tid : string) (evs : list Event) :
  NoDup (in_flight (run (mount tid) evs)) /\
  Forall (fun id => (id < fetches (run (mount tid) evs))%nat)
         (in_flight (run (mount tid) evs)) /\
  (count is_handled (run (mount tid) evs)
   + List.length (in_flight (run (mount tid) evs))
   = fetches (run (mount tid) evs))%nat.
Proof.
  pose proof (scheduled_run tid evs (mount tid) (scheduled_mount tid)) as Hs.
  rewrite (scheduled_fetches tid _ Hs).
  exact (accounted_run evs (mount tid) (accounted_mount tid)).
Qed.

Lemma pace_of_armed (st : State) (due : Z) :
  Inv st -> poll st = Some due ->
  (now st < due <= now st + INTERVAL)%Z /\
  due = ((Z.of_nat (fetches st) + 1) * INTERVAL)%Z /\
  fetches st = Z.to_nat (now st / INTERVAL).
Proof.
  intros [(Hp & Hs & _) Hn] Hdue.
  destruct (Hp due Hdue) as [H1 H2]. specialize (Hn due Hdue).
  unfold INTERVAL in *. repeat split; try lia.
  assert (H : (now st / 3000 = Z.of_nat (fetches st))%Z).
  { symmetry.
    apply Z.div_unique with (r := (now st - 3000 * Z.of_nat (fetches st))%Z);
      lia. }
  rewrite H. lia.
Qed.

(** X8.  As long as the timer is armed it keeps pace with the
    clock: the requests sent are as many as the whole periods that
    have passed since mounting, and the next one is due at the end
    of the current period. *)
Theorem armed_timer_keeps_pace (tid : string) (evs : list Event) (due : Z) :
  poll (run (mount tid) evs) = Some due ->
  (now (run (mount tid) evs) < due <= now (run (mount tid) evs) + INTERVAL)%Z /\
  due = ((Z.of_nat (fetches (run (mount tid) evs)) + 1) * INTERVAL)%Z /\
  fetches (run (mount tid) evs)
  = Z.to_nat (now (run (mount tid) evs) / INTERVAL).
Proof.
  apply pace_of_armed. apply inv_run, inv_mount.
Qed.

Lemma armed_timer_keeps_pace_witness :
  fetches (run (mount Scenario.task)
               [Elapse 7000; Settle 1 (Fulfilled (Scenario.running 1 3));
                Elapse 3500])
  = 3%nat.
Proof.
  apply (armed_timer_keeps_pace Scenario.task
           [Elapse 7000; Settle 1 (Fulfilled (Scenario.running 1 3));
            Elapse 3500]
           12000 eq_refl).
Defined.

Lemma fire_stays_armed (target : Z) (fuel : nat) :
  forall st due, poll st = Some due ->
                 exists due', poll (fire fuel target st) = Some due'.
Proof.
  induction fuel as [| fuel IH]; intros st due Hp; cbn; [eauto |].
  rewrite Hp. destruct (due <=? target)%Z; [| eauto].
  apply (IH (tick due st) (due + INTERVAL)%Z). reflexivity.
Qed.

Lemma step_stays_armed (st : State) (ev : Event) (due : Z) :
  poll st = Some due -> keeps_polling ev = true ->
  exists due', poll (step st ev) = Some due'.
Proof.
  intros Hp Hk. destruct ev as [d | id [data |] |]; try discriminate;
    unfold step.
  - unfold elapse.
    destruct (fire_stays_armed (now st + Z.of_N d)
                (S (Z.to_nat (Z.of_N d / INTERVAL))) st due Hp) as [due' H].
    exists due'. exact H.
  - destruct (pending id st); [| eauto].
    unfold resume. cbn in Hk. apply negb_true_iff in Hk. rewrite Hk.
    exists due. exact Hp.
Qed.

Lemma run_stays_armed (evs : list Event) :
  forall st due,
    poll st = Some due -> forallb keeps_polling evs = true ->
    exists due', poll (run st evs) = Some due'.
Proof.
  induction evs as [| ev evs IH]; intros st due Hp Hk; [cbn; eauto |].
  change (run st (ev :: evs)) with (run (step st ev) evs).
  cbn in Hk. apply andb_true_iff in Hk. destruct Hk as [Hev Hevs].
  destruct (step_stays_armed st ev due Hp Hev) as [due' H].
  apply (IH (step st ev) due' H Hevs).
Qed.

(** X9.  The poller does not stop by itself.  In a session where
    time passes and responses of any status other than SUCCESS
    arrive, and nothing else happens, the timer stays armed and a
    request has been sent for every whole period elapsed, however
    many those are. *)
Theorem polling_goes_on (tid : string) (evs : list Event) :
  forallb keeps_polling evs = true ->
  poll (run (mount tid) evs) <> None /\
  fetches (run (mount tid) evs)
  = Z.to_nat (now (run (mount tid) evs) / INTERVAL).
Proof.
  intros Hk.
  destruct (run_stays_armed evs (mount tid) INTERVAL eq_refl Hk) as [due H].
  split; [congruence |].
  apply (pace_of_armed _ due (inv_run evs _ (inv_mount tid)) H).
Qed.

Lemma polling_goes_on_witness :
  fetches (run (mount Scenario.task)
               [Elapse 3000; Settle 0 (Fulfilled Scenario.failure);
                Elapse 60000])
  = 21%nat.
Proof.
  apply (polling_goes_on Scenario.task
           [Elapse 3000; Settle 0 (Fulfilled Scenario.failure);
            Elapse 60000]
           eq_refl).
Defined.

(** X10.  A component torn down before its first period is over
    never sends a request, neither before the cleanup nor at any
    time after it. *)
Theorem early_teardown_sends_nothing
    (tid : string) (before after : list Event) :
  (now (run (mount tid) before) < INTERVAL)%Z ->
  fetches (run (mount tid) (before ++ Unmount :: after)) = 0%nat.
Proof.
  intros Hnow. rewrite run_app.
  change (run (run (mount tid) before) (Unmount :: after))
    with (run (clearInterval (run (mount tid) before)) after).
  destruct (run_when_cleared after
              (clearInterval (run (mount tid) before)) eq_refl) as [_ H].
  rewrite H, fetches_clearInterval.
  destruct (inv_run before (mount tid) (inv_mount tid)) as [(_ & Hs & _) _].
  unfold INTERVAL in *. lia.
Qed.

Lemma early_teardown_sends_nothing_witness :
  fetches (run (mount Scenario.task)
               ([Elapse 2999] ++ Unmount :: [Elapse 100000]))
  = 0%nat.
Proof.
  apply (early_teardown_sends_nothing Scenario.task
           [Elapse 2999] [Elapse 100000]).
  reflexivity.
Defined.

End SessionFacts.

(** * What the results page shows over time *)

Section ViewFacts.

Import Payload ResultsPage Session.



Lemma results_change_only_on_success (st : State) (ev : Event) :
  is_success ev = false -> results (step st ev) = results st.
Proof.
  intros H. destruct ev as [d | id [data |] |].
  - apply (step_without_settle st (Elapse d) eq_refl).
  - unfold step. destruct (pending id st); [| reflexivity].
    unfold resume. cbn in H. rewrite H. reflexivity.
  - unfold step. destruct (pending id st); reflexivity.
  - reflexivity.
Qed.

(** X12.  Once the leaderboard is on screen it stays as it is until
    another SUCCESS response is handled: progress updates and
    failures that arrive late, time and teardown change the snapshot
    at most, never the table. *)
Theorem leaderboard_stays
    (st : State) (rs : list ModelResult) (evs : list Event) :
  results st = Some rs ->
  forallb (fun ev => negb (is_success ev)) evs = true ->
  render (run st evs) = Leaderboard (rows rs).
Proof.
  revert st. induction evs as [| ev evs IH]; intros st Hr Hevs.
  - unfold render. cbn. rewrite Hr. reflexivity.
  - change (run st (ev :: evs)) with (run (step st ev) evs).
    cbn in Hevs. apply andb_true_iff in Hevs. destruct Hevs as [Hev Hevs].
    apply negb_true_iff in Hev.
    apply IH; [| exact Hevs].
    rewrite (results_change_only_on_success st ev Hev). exact Hr.
Qed.

Lemma leaderboard_stays_witness :
  pending 0 Scenario.shown_with_one_pending = true /\
  taskStatus
    (run Scenario.shown_with_one_pending
         [Settle 0 (Fulfilled (Scenario.running 1 3)); Elapse 9000; Unmount])
  = Scenario.running 1 3 /\
  render
    (run Scenario.shown_with_one_pending
         [Settle 0 (Fulfilled (Scenario.running 1 3)); Elapse 9000; Unmount])
  = Leaderboard (rows [Scenario.A; Scenario.B]).
Proof.
  split; [reflexivity |]. split; [reflexivity |].
  apply (leaderboard_stays Scenario.shown_with_one_pending
           [Scenario.A; Scenario.B]
           [Settle 0 (Fulfilled (Scenario.running 1 3)); Elapse 9000; Unmount]
           eq_refl eq_refl).
Defined.

Lemma only_request_pending (id : nat) (st : State) :
  in_flight st = [id] -> pending id st = true.
Proof.
  intros H. unfold pending. rewrite H. cbn. rewrite Nat.eqb_refl. reflexivity.
Qed.

Lemma after_last_success (st : State) (id : nat) (data : Payload.t) :
  in_flight st = [id] ->
  status data = "SUCCESS"%string ->
  forall evs,
    results (run (step st (Settle id (Fulfilled data))) evs)
    = Payload.results data /\
    taskStatus (run (step st (Settle id (Fulfilled data))) evs)
    = taskStatus st /\
    fetches (run (step st (Settle id (Fulfilled data))) evs) = fetches st.
Proof.
  intros Hone Hs evs.
  pose proof (only_request_pending id st Hone) as Hp.
  destruct (success_stops_polling st id data Hp Hs) as (Hr & _ & _ & Hc & Hf).
  assert (Hst : step st (Settle id (Fulfilled data))
                = clearInterval
                    (setResults (Payload.results data)
                       (set_in_flight
                          (List.remove Nat.eq_dec id (in_flight st)) st))).
  { unfold step. rewrite Hp. unfold resume. rewrite Hs. reflexivity. }
  destruct (run_when_quiet evs (step st (Settle id (Fulfilled data))) Hc)
    as [H1 H2].
  { rewrite Hst. cbn. rewrite Hone. cbn.
    destruct (Nat.eq_dec id id); [reflexivity | contradiction]. }
  rewrite H1, H2. repeat split.
  - exact Hr.
  - rewrite Hst. reflexivity.
  - apply Hf.
Qed.

(** X13.  When the only request in flight is answered with SUCCESS
    and a list of results, the table of that list, possibly without
    any row, is what the page shows from then on, and no request is
    sent again. *)
Theorem success_is_final
    (st : State) (id : nat) (data : Payload.t) (rs : list ModelResult)
    (evs : list Event) :
  in_flight st = [id] ->
  status data = "SUCCESS"%string ->
  Payload.results data = Some rs ->
  render (run (step st (Settle id (Fulfilled data))) evs)
  = Leaderboard (rows rs) /\
  fetches (run (step st (Settle id (Fulfilled data))) evs) = fetches st.
Proof.
  intros Hone Hs Hrs.
  destruct (after_last_success st id data Hone Hs evs) as (H1 & _ & H3).
  unfold render. rewrite H1, Hrs. split; [reflexivity | exact H3].
Qed.

Lemma success_is_final_witness :
  render (run (step Scenario.polled_once
                    (Settle 0 (Fulfilled (Scenario.success []))))
              [Elapse 30000])
  = Leaderboard [].
Proof.
  apply (success_is_final Scenario.polled_once 0 (Scenario.success []) []
           [Elapse 30000] eq_refl eq_refl eq_refl).
Defined.

(** X14.  When the only request in flight is answered with SUCCESS
    but without a [results] field, polling stops all the same and
    the page is left on the progress view it showed before, for
    good: nothing is requested again and nothing changes the view. *)
Theorem success_without_results_is_stuck
    (st : State) (id : nat) (data : Payload.t) (evs : list Event) :
  in_flight st = [id] ->
  results st = None ->
  status data = "SUCCESS"%string ->
  Payload.results data = None ->
  poll (step st (Settle id (Fulfilled data))) = None /\
  render (run (step st (Settle id (Fulfilled data))) evs) = render st /\
  (exists caption width, render st = Analysing caption width) /\
  fetches (run (step st (Settle id (Fulfilled data))) evs) = fetches st.
Proof.
  intros Hone Hnone Hs Hrs.
  destruct (after_last_success st id data Hone Hs evs) as (H1 & H2 & H3).
  destruct (success_stops_polling st id data
              (only_request_pending id st Hone) Hs) as (_ & _ & _ & Hc & _).
  unfold render. rewrite H1, H2, Hrs, Hnone. repeat split; eauto.
Qed.

Lemma success_without_results_is_stuck_witness :
  render (run (step Scenario.polled_once
                    (Settle 0 (Fulfilled
                                 {| status := "SUCCESS"; meta := None;
                                    Payload.results := None |})))
              [Elapse 30000])
  = render Scenario.polled_once.
Proof.
  apply (success_without_results_is_stuck Scenario.polled_once 0
           {| status := "SUCCESS"; meta := None; Payload.results := None |}
           [Elapse 30000] eq_refl eq_refl eq_refl eq_refl).
Defined.

Lemma rows_from_later_flags (rs : list ModelResult) :
  forall index,
    map best (rows_from (S index) rs) = repeat false (List.length rs).
Proof.
  induction rs as [| res rest IH]; intros index; cbn; [reflexivity |].
  rewrite IH. reflexivity.
Qed.

(** X19.  Whenever results are held the page shows the table, and
    the table follows the list held row by row: the same entries in
    the same order, numbered from 1, the first row highlighted and no
    other; an empty list gives a table without rows. *)
Theorem table_lists_results_in_order (st : State) (rs : list ModelResult) :
  results st = Some rs ->
  exists table,
    render st = Leaderboard table /\
    map entry table = rs /\
    map position table = seq 1 (List.length rs) /\
    map best table
    = match rs with
      | [] => []
      | _ :: rest => true :: repeat false (List.length rest)
      end.
Proof.
  intros Hr. exists (rows rs). unfold render. rewrite Hr.
  split; [reflexivity |]. unfold rows. split; [apply rows_from_entries |].
  split; [apply rows_from_positions |].
  destruct rs as [| res rest]; cbn; [reflexivity |].
  rewrite rows_from_later_flags. reflexivity.
Qed.

Lemma table_lists_results_in_order_witness :
  exists table,
    render Scenario.unsorted_shown = Leaderboard table /\
    map entry table = [Scenario.A; Scenario.B] /\
    map best table = [true; false].
Proof.
  destruct (table_lists_results_in_order Scenario.unsorted_shown
              [Scenario.A; Scenario.B] eq_refl)
    as (table & H1 & H2 & _ & H4).
  exists table. auto.
Defined.

End ViewFacts.

(** * The progress view between responses *)

Section SnapshotFacts.

Import Payload ResultsPage Session.

(** X15.  While no results are held, a response with a status other
    than SUCCESS decides the whole progress view: caption and bar
    are those of that response alone, nothing of the snapshot held
    before is kept. *)
Theorem progress_view_shows_latest_response
    (st : State) (id : nat) (data : Payload.t) :
  pending id st = true ->
  results st = None ->
  status data <> "SUCCESS"%string ->
  render (step st (Settle id (Fulfilled data)))
  = Analysing (caption_of (meta data)) (progress data).
Proof.
  intros Hp Hr Hs.
  destruct (other_status_keeps_polling st id data Hp Hs) as (H1 & H2 & _).
  unfold render. rewrite H1, H2, Hr. reflexivity.
Qed.

Lemma progress_view_shows_latest_response_witness :
  render (step (step Scenario.polled_twice
                     (Settle 0 (Fulfilled (Scenario.running 2 3))))
               (Settle 1 (Fulfilled Scenario.failure)))
  = Analysing None (JS.Num 0).
Proof.
  apply (progress_view_shows_latest_response
           (step Scenario.polled_twice
                 (Settle 0 (Fulfilled (Scenario.running 2 3))))
           1 Scenario.failure eq_refl eq_refl).
  discriminate.
Defined.

(** X16.  Responses are applied in the order they arrive, not in
    the order their requests were sent: of two requests in flight,
    the snapshot held after both have been answered is the answer
    that came last, whichever request it belongs to. *)
Theorem last_response_wins
    (st : State) (id1 id2 : nat) (d1 d2 : Payload.t) :
  id1 <> id2 ->
  pending id1 st = true ->
  pending id2 st = true ->
  status d1 <> "SUCCESS"%string ->
  status d2 <> "SUCCESS"%string ->
  taskStatus (run st [Settle id2 (Fulfilled d2); Settle id1 (Fulfilled d1)])
  = d1.
Proof.
  intros Hne Hp1 Hp2 Hs1 Hs2.
  change (run st [Settle id2 (Fulfilled d2); Settle id1 (Fulfilled d1)])
    with (step (step st (Settle id2 (Fulfilled d2)))
               (Settle id1 (Fulfilled d1))).
  apply other_status_keeps_polling; [| exact Hs1].
  apply pending_in. apply pending_in in Hp1.
  unfold step. rewrite Hp2. rewrite in_flight_resume. cbn.
  apply in_in_remove; assumption.
Qed.

Lemma last_response_wins_witness :
  taskStatus (run Scenario.polled_twice
                  [Settle 1 (Fulfilled (Scenario.running 2 3));
                   Settle 0 (Fulfilled (Scenario.running 1 3))])
  = Scenario.running 1 3.
Proof.
  apply (last_response_wins Scenario.polled_twice 0 1
           (Scenario.running 1 3) (Scenario.running 2 3));
    try reflexivity; discriminate.
Defined.

Lemma nan_div (t : JS.number) : JS.div nan t = nan.
Proof.
  unfold JS.div. rewrite <- (SF2Prim_Prim2SF (nan / t)), div_spec.
  reflexivity.
Qed.

Lemma nan_mul (t : JS.number) : JS.mul nan t = nan.
Proof.
  unfold JS.mul. rewrite <- (SF2Prim_Prim2SF (nan * t)), mul_spec.
  reflexivity.
Qed.

(** X17.  A snapshot with a usable total but no [current] gives a
    bar whose width is NaN, whatever the total: [undefined] divided
    by a number is NaN, and so is NaN times 100. *)
Theorem progress_nan_without_current (ts : Payload.t) (m : ProgressMeta) :
  meta ts = Some m -> current m = None -> JS.truthy (total m) = true ->
  progress ts = nan /\ progressFraction ts = nan.
Proof.
  intros Hm Hc Ht.
  assert (H : progress ts = nan).
  { rewrite (progress_with_total ts m Hm Ht), Hc. cbn [JS.to_number].
    rewrite nan_div. apply nan_mul. }
  split; [exact H |].
  unfold progressFraction. rewrite H. apply nan_div.
Qed.

Lemma progress_nan_without_current_witness :
  progress Scenario.without_current = nan.
Proof.
  apply (progress_nan_without_current Scenario.without_current _
           eq_refl eq_refl eq_refl).
Defined.

Lemma growth_checked :
  forallb ProgressTable.grows_ok (seq 1 ProgressTable.SMALL) = true.
Proof. vm_compute. reflexivity. Qed.

(** X18.  For whole counters and a total from 1 to 50 the bar never
    shrinks when [current] grows within the total: it is 0 wide at
    0, no narrower for a larger [current], and exactly 100 wide when
    [current] has reached the total. *)
Theorem bar_grows_to_full
    (ts1 ts2 : Payload.t) (m1 m2 : ProgressMeta) (c1 c2 t : Z) :
  meta ts1 = Some m1 -> current m1 = Some (JS.Num c1) ->
  total m1 = Some (JS.Num t) ->
  meta ts2 = Some m2 -> current m2 = Some (JS.Num c2) ->
  total m2 = Some (JS.Num t) ->
  (1 <= t <= 50)%Z -> (0 <= c1 <= c2)%Z -> (c2 <= t)%Z ->
  PrimFloat.leb (progress ts1) (progress ts2) = true /\
  (c1 = 0%Z -> progress ts1 = JS.Num 0) /\
  (c2 = t -> progress ts2 = JS.Num 100).
Proof.
  intros Hm1 Hc1 Ht1 Hm2 Hc2 Ht2 Ht Hc Hle.
  assert (H1 : progress ts1
               = ProgressTable.width_at (Z.to_nat t) (Z.to_nat c1)).
  { unfold ProgressTable.width_at. rewrite !Z2Nat.id by lia.
    apply (progress_of_counting ts1 m1 _ _ Hm1 Hc1 Ht1). }
  assert (H2 : progress ts2
               = ProgressTable.width_at (Z.to_nat t) (Z.to_nat c2)).
  { unfold ProgressTable.width_at. rewrite !Z2Nat.id by lia.
    apply (progress_of_counting ts2 m2 _ _ Hm2 Hc2 Ht2). }
  pose proof (proj1 (forallb_forall _ _) growth_checked (Z.to_nat t)) as Hrow.
  unfold ProgressTable.grows_ok in Hrow.
  rewrite !andb_true_iff, forallb_forall in Hrow.
  destruct Hrow as [[Hpairs Hzero] Hfull].
  { apply in_seq. unfold ProgressTable.SMALL. lia. }
  rewrite H1, H2. split; [| split].
  - specialize (Hpairs (Z.to_nat c2)). rewrite forallb_forall in Hpairs.
    apply Hpairs; apply in_seq; lia.
  - intros ->. apply FloatAxioms.Leibniz.eqb_spec. exact Hzero.
  - intros ->. apply FloatAxioms.Leibniz.eqb_spec. exact Hfull.
Qed.

Lemma bar_grows_to_full_witness :
  PrimFloat.leb (progress (Scenario.running 1 3))
                (progress (Scenario.running 3 3)) = true /\
  progress (Scenario.running 3 3) = JS.Num 100.
Proof.
  destruct (bar_grows_to_full (Scenario.running 1 3) (Scenario.running 3 3)
              _ _ 1 3 3 eq_refl eq_refl eq_refl eq_refl eq_refl eq_refl)
    as (H1 & _ & H3); [lia | lia | lia |].
  split; [exact H1 | apply H3; reflexivity].
Defined.

End SnapshotFacts.
